(** * FlowState: response normalisation, usage ledger, merge and heal loop

    A shallow embedding of the parts of the FlowState repository that carry
    its behavioural contract:

    - [lib/safe-parse.js]    ([parseInspectorResponse], [parseSurgeonResponse]),
    - [lib/usage-tracker.js] (the [UsageTracker] class and its [PRICING] table),
    - [server.js]            (the routes [/api/generate-asset], [/api/usage/budget],
                              [/api/diff] and [/api/chat], and the safe file name),
    - [agents/artist.js], [agents/inspector.js], [agents/surgeon.js],
    - the overlay's [mergeDefects], and
    - [orchestrator.js]      ([runFlowState], [runFlowStateAPI]).

    JavaScript strings are sequences of UTF-16 code units, JavaScript numbers
    held by the ledger are binary64 floats, values coming out of [JSON.parse]
    are dynamically typed, and exceptions are explicit.  Console output is not
    part of the model. *)

From Stdlib Require Import ZArith NArith List Bool Lia PrimFloat String Ascii Sorted.
From Stdlib Require Import DecimalString DecimalNat.
From stdpp Require Import gmap.
Import ListNotations.

Set Warnings "-register-all,-inexact-float".

(* ================================================================== *)
(** ** JavaScript strings, values and completions *)

Module JS.

(** A string is its sequence of UTF-16 code units. *)
Definition jsstring := list N.

Definition cu (c : ascii) : N := N_of_ascii c.

(** An ASCII literal as a JavaScript string. *)
Definition u16 (s : string) : jsstring := map cu (list_ascii_of_string s).

(** The same, with every apostrophe of the literal standing for the double
    quote U+0022; used to write JSON texts. *)
Definition dq (s : string) : jsstring :=
  map (fun c => if N.eqb (cu c) 39 then 34%N else cu c) (list_ascii_of_string s).

Arguments u16 : simpl never.
Arguments dq : simpl never.

Definition str_eqb (a b : jsstring) : bool :=
  if decide (a = b) then true else false.

Fixpoint starts_with (pat s : jsstring) : bool :=
  match pat, s with
  | [], _ => true
  | p :: pat', c :: s' => N.eqb p c && starts_with pat' s'
  | _ :: _, [] => false
  end.

(** ASCII case folding, which is all that the [i] flag of a regular
    expression does to an ASCII pattern letter. *)
Definition ascii_lower (c : N) : N :=
  if (N.leb 65 c && N.leb c 90)%bool then (c + 32)%N else c.

Fixpoint starts_with_ci (pat s : jsstring) : bool :=
  match pat, s with
  | [], _ => true
  | p :: pat', c :: s' => N.eqb (ascii_lower p) (ascii_lower c) && starts_with_ci pat' s'
  | _ :: _, [] => false
  end.

(** The characters matched by [\s] and removed by [String.prototype.trim]:
    WhiteSpace and LineTerminator of ECMA-262. *)
Definition is_ws (c : N) : bool :=
  (N.leb 9 c && N.leb c 13)%bool
  || N.eqb c 32 || N.eqb c 160 || N.eqb c 5760
  || (N.leb 8192 c && N.leb c 8202)%bool
  || N.eqb c 8232 || N.eqb c 8233 || N.eqb c 8239 || N.eqb c 8287
  || N.eqb c 12288 || N.eqb c 65279.

Fixpoint drop_ws (s : jsstring) : jsstring :=
  match s with
  | c :: r => if is_ws c then drop_ws r else s
  | [] => []
  end.

Definition trim (s : jsstring) : jsstring := rev (drop_ws (rev (drop_ws s))).

(** [String.prototype.toLowerCase] on a string of ASCII characters. *)
Definition ascii_toLowerCase (s : jsstring) : jsstring := map ascii_lower s.

(** [s.substring(0, n)] *)
Definition substring0 (n : nat) (s : jsstring) : jsstring := firstn n s.

(** Decimal rendering of a natural number, as template literals do it. *)
Definition dec (n : nat) : jsstring :=
  u16 (NilEmpty.string_of_uint (Nat.to_uint n)).

(** A number read from a decimal literal: [(-1)^negative * digits * 10^exp10].
    The engine rounds that rational to the nearest binary64; the program only
    ever asks whether the result is zero. *)
Record jsnum := { negative : bool; digits : N; exp10 : Z }.

(** The literal rounds to (plus or minus) zero: it is zero, or it is at most
    half the least positive subnormal, 2^-1075. *)
Definition num_is_zero (n : jsnum) : bool :=
  N.eqb (digits n) 0
  || (Z.ltb (exp10 n) 0
      && Z.leb (Z.of_N (digits n) * 2 ^ 1075) (10 ^ (- exp10 n)))%bool.

(** Values produced by [JSON.parse].  An object keeps its members in source
    order; a later member shadows an earlier one of the same name. *)
Inductive jsval :=
| JNull
| JBool (b : bool)
| JNumber (n : jsnum)
| JString (s : jsstring)
| JArray (xs : list jsval)
| JObject (members : list (jsstring * jsval)).

Inductive jstype := TObject | TBoolean | TNumber | TString.

Definition typeof (v : jsval) : jstype :=
  match v with
  | JBool _ => TBoolean
  | JNumber _ => TNumber
  | JString _ => TString
  | JNull | JArray _ | JObject _ => TObject
  end.

Definition truthy (v : jsval) : bool :=
  match v with
  | JNull => false
  | JBool b => b
  | JNumber n => negb (num_is_zero n)
  | JString s => match s with [] => false | _ => true end
  | JArray _ | JObject _ => true
  end.

(** [a || b], where [a] may be [undefined] ([None]). *)
Definition or_else (a : option jsval) (b : jsval) : jsval :=
  match a with
  | Some v => if truthy v then v else b
  | None => b
  end.

(** [a || b] with both sides possibly [undefined]. *)
Definition or_undef (a b : option jsval) : option jsval :=
  match a with
  | Some v => if truthy v then a else b
  | None => b
  end.

(** What an exception says ([e.message]).  The text is fixed by the program
    or handed over by a collaborator, except for the errors raised by the
    engine itself and by Node's [fs], whose wording is theirs. *)
Inductive message :=
| Msg (text : jsstring)
| EngineSyntaxError
| EngineTypeError
| NoSuchFile (path : jsstring).

Inductive completion (A : Type) :=
| Normal (a : A)
| Throw (e : message).
Arguments Normal {A} a.
Arguments Throw {A} e.

#[global] Instance message_eq_dec : EqDecision message.
Proof. solve_decision. Defined.

#[global] Instance completion_eq_dec {A} `{EqDecision A} : EqDecision (completion A).
Proof. solve_decision. Defined.

Definition bind {A B} (c : completion A) (k : A -> completion B) : completion B :=
  match c with
  | Normal a => k a
  | Throw e => Throw e
  end.

Module Import Notations.
Notation "x <- c ;; k" := (bind c (fun x => k))
  (at level 100, c at next level, right associativity).
Notation "'check' b 'else_throw' e ;; k" := (if b then k else Throw e)
  (at level 100, b at next level, e at next level, right associativity).
End Notations.

Fixpoint find_last (k : jsstring) (ms : list (jsstring * jsval)) (found : option jsval)
  : option jsval :=
  match ms with
  | [] => found
  | (k', v) :: ms' => find_last k ms' (if str_eqb k k' then Some v else found)
  end.

(** [v.k] for the member names this program reads, none of which is defined
    on a built-in prototype: reading from [null] throws, an object answers
    with its member or [undefined], every other value answers [undefined]. *)
Definition get (v : jsval) (k : jsstring) : completion (option jsval) :=
  match v with
  | JNull => Throw EngineTypeError
  | JObject ms => Normal (find_last k ms None)
  | _ => Normal None
  end.

(** [xs.map((x, index) => f(x, index))] with a callback that may throw. *)
Fixpoint map_indexed {A B} (f : A -> nat -> completion B) (i : nat) (xs : list A)
  : completion (list B) :=
  match xs with
  | [] => Normal []
  | x :: xs' =>
      y <- f x i ;;
      ys <- map_indexed f (S i) xs' ;;
      Normal (y :: ys)
  end.

End JS.

(* ================================================================== *)
(** ** [JSON.parse]

    The engine's parser, as a character automaton that produces tokens and a
    pushdown automaton that assembles them (ECMA-404 grammar).  Both run by
    structural recursion over their input, so parsing is total. *)

Module JSON.
Import JS.

Inductive token :=
| TLBrace | TRBrace | TLBracket | TRBracket | TColon | TComma
| TStr (s : jsstring)
| TNum (n : jsnum)
| TLit (v : jsval).

Inductive num_stage :=
| NMinus | NZero | NInt | NDot | NFrac | NExpMark | NExpSign | NExp.

(** A number in the making: stage, sign, digits read so far, how many of
    them are fraction digits, sign and value of the exponent. *)
Record num_acc := {
  stage : num_stage; neg : bool; mant : N; frac : Z; eneg : bool; expo : Z
}.

Inductive mode :=
| Between
| InString (acc : jsstring)
| Escape (acc : jsstring)
| Unicode (acc : jsstring) (left : nat) (value : N)
| InNumber (a : num_acc)
| InLiteral (rest : jsstring) (v : jsval).

Definition is_json_ws (c : N) : bool :=
  N.eqb c 32 || N.eqb c 9 || N.eqb c 10 || N.eqb c 13.

Definition digit (c : N) : option N :=
  if (N.leb 48 c && N.leb c 57)%bool then Some (c - 48)%N else None.

Definition hex_digit (c : N) : option N :=
  if (N.leb 48 c && N.leb c 57)%bool then Some (c - 48)%N
  else if (N.leb 65 c && N.leb c 70)%bool then Some (c - 55)%N
  else if (N.leb 97 c && N.leb c 102)%bool then Some (c - 87)%N
  else None.

(** The character after a backslash, other than [u]. *)
Definition simple_escape (c : N) : option N :=
  if N.eqb c 34 then Some 34%N            (* quote *)
  else if N.eqb c 92 then Some 92%N       (* backslash *)
  else if N.eqb c 47 then Some 47%N       (* solidus *)
  else if N.eqb c 98 then Some 8%N        (* b: backspace *)
  else if N.eqb c 102 then Some 12%N      (* f: form feed *)
  else if N.eqb c 110 then Some 10%N      (* n: line feed *)
  else if N.eqb c 114 then Some 13%N      (* r: carriage return *)
  else if N.eqb c 116 then Some 9%N       (* t: tab *)
  else None.

Definition num_start (negative : bool) (st : num_stage) (d : N) : num_acc :=
  {| stage := st; neg := negative; mant := d; frac := 0; eneg := false; expo := 0 |}.

(** The first character of a token. *)
Definition start (c : N) : option (mode * option token) :=
  if is_json_ws c then Some (Between, None)
  else if N.eqb c 123 then Some (Between, Some TLBrace)
  else if N.eqb c 125 then Some (Between, Some TRBrace)
  else if N.eqb c 91 then Some (Between, Some TLBracket)
  else if N.eqb c 93 then Some (Between, Some TRBracket)
  else if N.eqb c 58 then Some (Between, Some TColon)
  else if N.eqb c 44 then Some (Between, Some TComma)
  else if N.eqb c 34 then Some (InString [], None)
  else if N.eqb c 45 then Some (InNumber (num_start true NMinus 0), None)
  else if N.eqb c 48 then Some (InNumber (num_start false NZero 0), None)
  else if N.eqb c 116 then Some (InLiteral (u16 "rue") (JBool true), None)
  else if N.eqb c 102 then Some (InLiteral (u16 "alse") (JBool false), None)
  else if N.eqb c 110 then Some (InLiteral (u16 "ull") JNull, None)
  else match digit c with
       | Some d => Some (InNumber (num_start false NInt d), None)
       | None => None
       end.

Inductive num_next :=
| More (a : num_acc)
| Finished
| Malformed.

Definition with_stage (a : num_acc) (st : num_stage) : num_acc :=
  {| stage := st; neg := neg a; mant := mant a; frac := frac a;
     eneg := eneg a; expo := expo a |}.

Definition int_digit (a : num_acc) (d : N) : num_acc :=
  {| stage := NInt; neg := neg a; mant := mant a * 10 + d; frac := frac a;
     eneg := eneg a; expo := expo a |}.

Definition frac_digit (a : num_acc) (d : N) : num_acc :=
  {| stage := NFrac; neg := neg a; mant := mant a * 10 + d; frac := frac a + 1;
     eneg := eneg a; expo := expo a |}.

Definition exp_digit (a : num_acc) (d : N) : num_acc :=
  {| stage := NExp; neg := neg a; mant := mant a; frac := frac a;
     eneg := eneg a; expo := expo a * 10 + Z.of_N d |}.

Definition exp_sign (a : num_acc) (minus : bool) : num_acc :=
  {| stage := NExpSign; neg := neg a; mant := mant a; frac := frac a;
     eneg := minus; expo := expo a |}.

Definition is_e (c : N) : bool := N.eqb c 101 || N.eqb c 69.

Definition num_step (a : num_acc) (c : N) : num_next :=
  match stage a, digit c with
  | NMinus, Some d => More (if N.eqb d 0 then with_stage a NZero else int_digit a d)
  | NMinus, None => Malformed
  | NZero, _ =>
      if N.eqb c 46 then More (with_stage a NDot)
      else if is_e c then More (with_stage a NExpMark) else Finished
  | NInt, Some d => More (int_digit a d)
  | NInt, None =>
      if N.eqb c 46 then More (with_stage a NDot)
      else if is_e c then More (with_stage a NExpMark) else Finished
  | NDot, Some d => More (frac_digit a d)
  | NDot, None => Malformed
  | NFrac, Some d => More (frac_digit a d)
  | NFrac, None => if is_e c then More (with_stage a NExpMark) else Finished
  | NExpMark, Some d => More (exp_digit a d)
  | NExpMark, None =>
      if N.eqb c 43 then More (exp_sign a false)
      else if N.eqb c 45 then More (exp_sign a true) else Malformed
  | NExpSign, Some d => More (exp_digit a d)
  | NExpSign, None => Malformed
  | NExp, Some d => More (exp_digit a d)
  | NExp, None => Finished
  end.

(** The token of a number whose text ends here, if it may end here. *)
Definition num_token (a : num_acc) : option token :=
  match stage a with
  | NZero | NInt | NFrac | NExp =>
      Some (TNum {| negative := neg a; digits := mant a;
                    exp10 := (if eneg a then - expo a else expo a) - frac a |})
  | NMinus | NDot | NExpMark | NExpSign => None
  end.

Fixpoint lex (s : jsstring) (m : mode) (out : list token) : option (list token) :=
  match s with
  | [] =>
      match m with
      | Between => Some (rev out)
      | InNumber a =>
          match num_token a with Some t => Some (rev (t :: out)) | None => None end
      | _ => None
      end
  | c :: r =>
      match m with
      | Between =>
          match start c with
          | Some (m', Some t) => lex r m' (t :: out)
          | Some (m', None) => lex r m' out
          | None => None
          end
      | InString acc =>
          if N.eqb c 34 then lex r Between (TStr (rev acc) :: out)
          else if N.eqb c 92 then lex r (Escape acc) out
          else if N.ltb c 32 then None
          else lex r (InString (c :: acc)) out
      | Escape acc =>
          match simple_escape c with
          | Some x => lex r (InString (x :: acc)) out
          | None => if N.eqb c 117 then lex r (Unicode acc 4 0) out else None
          end
      | Unicode acc k v =>
          match hex_digit c, k with
          | Some h, 1 => lex r (InString ((v * 16 + h)%N :: acc)) out
          | Some h, S k' => lex r (Unicode acc k' (v * 16 + h)) out
          | _, _ => None
          end
      | InNumber a =>
          match num_step a c with
          | More a' => lex r (InNumber a') out
          | Malformed => None
          | Finished =>
              match num_token a, start c with
              | Some t, Some (m', Some t') => lex r m' (t' :: t :: out)
              | Some t, Some (m', None) => lex r m' (t :: out)
              | _, _ => None
              end
          end
      | InLiteral rest v =>
          match rest with
          | [x] => if N.eqb c x then lex r Between (TLit v :: out) else None
          | x :: rest' => if N.eqb c x then lex r (InLiteral rest' v) out else None
          | [] => None
          end
      end
  end.

(** Containers under construction, innermost first. *)
Inductive frame :=
| FArray (done : list jsval)
| FObject (done : list (jsstring * jsval))
| FMember (done : list (jsstring * jsval)) (key : jsstring).

Inductive expect :=
| EValue          (* a value *)
| EFirst          (* a value or the end of the array *)
| EFirstKey       (* a member name or the end of the object *)
| EKey            (* a member name *)
| EColon (key : jsstring)
| EMore           (* a comma or the end of the container *)
| EEnd (v : jsval).

(** A value is complete: hand it to the container that waits for it. *)
Definition deliver (v : jsval) (stack : list frame) : option (list frame * expect) :=
  match stack with
  | [] => Some ([], EEnd v)
  | FArray done :: st => Some (FArray (v :: done) :: st, EMore)
  | FMember done k :: st => Some (FObject ((k, v) :: done) :: st, EMore)
  | FObject _ :: _ => None
  end.

Definition value_token (t : token) (stack : list frame) : option (list frame * expect) :=
  match t with
  | TStr s => deliver (JString s) stack
  | TNum n => deliver (JNumber n) stack
  | TLit v => deliver v stack
  | TLBracket => Some (FArray [] :: stack, EFirst)
  | TLBrace => Some (FObject [] :: stack, EFirstKey)
  | _ => None
  end.

Definition close_array (stack : list frame) : option (list frame * expect) :=
  match stack with
  | FArray done :: st => deliver (JArray (rev done)) st
  | _ => None
  end.

Definition close_object (stack : list frame) : option (list frame * expect) :=
  match stack with
  | FObject done :: st => deliver (JObject (rev done)) st
  | _ => None
  end.

Definition shift (t : token) (stack : list frame) (e : expect)
  : option (list frame * expect) :=
  match e, t with
  | EValue, _ => value_token t stack
  | EFirst, TRBracket => close_array stack
  | EFirst, _ => value_token t stack
  | EFirstKey, TRBrace => close_object stack
  | EFirstKey, TStr k => Some (stack, EColon k)
  | EKey, TStr k => Some (stack, EColon k)
  | EColon k, TColon =>
      match stack with
      | FObject done :: st => Some (FMember done k :: st, EValue)
      | _ => None
      end
  | EMore, TComma =>
      match stack with
      | FArray _ :: _ => Some (stack, EValue)
      | FObject _ :: _ => Some (stack, EKey)
      | _ => None
      end
  | EMore, TRBracket => close_array stack
  | EMore, TRBrace => close_object stack
  | _, _ => None
  end.

Fixpoint assemble (ts : list token) (stack : list frame) (e : expect) : option jsval :=
  match ts with
  | [] => match e with EEnd v => Some v | _ => None end
  | t :: ts' =>
      match shift t stack e with
      | Some (stack', e') => assemble ts' stack' e'
      | None => None
      end
  end.

(** [JSON.parse(text)]: the value, or a [SyntaxError]. *)
Definition parse (text : jsstring) : completion jsval :=
  match lex text Between [] with
  | Some ts =>
      match assemble ts [] EValue with
      | Some v => Normal v
      | None => Throw EngineSyntaxError
      end
  | None => Throw EngineSyntaxError
  end.

End JSON.

(* ================================================================== *)
(** ** [lib/safe-parse.js] *)

Module SafeParse.
Import JS JS.Notations.

Definition fence : jsstring := u16 "```".
Definition fence_json : jsstring := u16 "```json".

(** [s.replace(/pat\s*/g, '')] for a literal [pat] (matched without regard
    to ASCII case when [ci] is set): every occurrence of [pat], scanning from
    the left, goes together with the white space that follows it.  [skip]
    counts the characters of the current occurrence still to be dropped and
    [in_ws] says that the white space after an occurrence is being dropped. *)
Fixpoint strip (ci : bool) (pat : jsstring) (s : jsstring) (skip : nat) (in_ws : bool)
  : jsstring :=
  match s with
  | [] => []
  | c :: r =>
      match skip with
      | S k => strip ci pat r k true
      | O =>
          if in_ws && is_ws c then strip ci pat r 0 true
          else if (if ci then starts_with_ci pat s else starts_with pat s)
          then strip ci pat r (length pat - 1) true
          else c :: strip ci pat r 0 false
      end
  end.

(** [text.replace(/```json\s*/gi, '').replace(/```\s*/g, '').trim()] *)
Definition clean (text : jsstring) : jsstring :=
  trim (strip false fence (strip true fence_json text 0 false) 0 false).

Record defect := {
  id : jsval;
  element : jsval;
  element_text : jsval;
  selector_hint : jsval;
  issue : jsval;
  expected : jsval;
  why : jsval
}.

Record report := {
  looks_good : jsval;
  visual_defects : list defect;
  needs_asset_generation : jsval;
  asset_generation_prompt : jsval
}.

Definition defect_n (index : nat) : jsval :=
  JString (u16 "defect-" ++ dec (index + 1)).

(** The callback of [parsed.visual_defects.map]. *)
Definition normalize (d : jsval) (index : nat) : completion defect :=
  match d with
  | JString s =>
      Normal {| id := defect_n index;
                element := JString (u16 "unknown");
                element_text := JNull;
                selector_hint := JString (u16 "*");
                issue := JString s;
                expected := JNull;
                why := JNull |}
  | _ =>
      d_id <- get d (u16 "id") ;;
      d_element <- get d (u16 "element") ;;
      d_element_text <- get d (u16 "element_text") ;;
      d_selector_hint <- get d (u16 "selector_hint") ;;
      d_issue <- get d (u16 "issue") ;;
      d_description <- get d (u16 "description") ;;
      d_expected <- get d (u16 "expected") ;;
      d_why <- get d (u16 "why") ;;
      Normal {| id := or_else d_id (defect_n index);
                element := or_else d_element (JString (u16 "unknown"));
                element_text := or_else d_element_text JNull;
                selector_hint := or_else d_selector_hint (JString (u16 "*"));
                issue := or_else (or_undef d_issue d_description)
                                 (JString (u16 "Unknown issue"));
                expected := or_else d_expected JNull;
                why := or_else d_why JNull |}
  end.

Definition missing_looks_good : message :=
  Msg (u16 "Missing or invalid 'looks_good' field (expected boolean)").
Definition missing_visual_defects : message :=
  Msg (u16 "Missing or invalid 'visual_defects' field (expected array)").
Definition missing_needs_asset_generation : message :=
  Msg (u16 "Missing or invalid 'needs_asset_generation' field (expected boolean)").

(** The three checks on the parsed value and the normalisation that follows
    them: the part of the [try] block after [JSON.parse]. *)
Definition validate (parsed : jsval) : completion report :=
  p_looks_good <- get parsed (u16 "looks_good") ;;
  match p_looks_good with
  | Some (JBool lg) =>
      p_visual_defects <- get parsed (u16 "visual_defects") ;;
      match p_visual_defects with
      | Some (JArray ds) =>
          p_needs <- get parsed (u16 "needs_asset_generation") ;;
          match p_needs with
          | Some (JBool nag) =>
              normalizedDefects <- map_indexed normalize 0 ds ;;
              p_prompt <- get parsed (u16 "asset_generation_prompt") ;;
              Normal {| looks_good := JBool lg;
                        visual_defects := normalizedDefects;
                        needs_asset_generation := JBool nag;
                        asset_generation_prompt := or_else p_prompt JNull |}
          | _ => Throw missing_needs_asset_generation
          end
      | _ => Throw missing_visual_defects
      end
  | _ => Throw missing_looks_good
  end.

(** The body of the [try] block. *)
Definition try_inspector (text : jsstring) : completion report :=
  parsed <- JSON.parse (clean text) ;;
  validate parsed.

(** U+26A0 U+FE0F, [ Parse error ], U+2014, [ manual review required]. *)
Definition parse_error_issue : jsstring :=
  [9888; 65039]%N ++ u16 " Parse error " ++ [8212%N] ++ u16 " manual review required".

Definition parse_error_defect : defect :=
  {| id := JString (u16 "defect-parse-error");
     element := JString (u16 "unknown");
     element_text := JNull;
     selector_hint := JString (u16 "*");
     issue := JString parse_error_issue;
     expected := JNull;
     why := JNull |}.

(** The [data] of the [catch] block. *)
Definition fallback : report :=
  {| looks_good := JBool false;
     visual_defects := [parse_error_defect];
     needs_asset_generation := JBool false;
     asset_generation_prompt := JNull |}.

Module Inspector.
Record result := { success : bool; error : option message; data : report }.
End Inspector.

Definition parseInspectorResponse (text : jsstring) : Inspector.result :=
  match try_inspector text with
  | Normal d =>
      {| Inspector.success := true; Inspector.error := None; Inspector.data := d |}
  | Throw e =>
      {| Inspector.success := false; Inspector.error := Some e;
         Inspector.data := fallback |}
  end.

(** *** [parseSurgeonResponse] *)

(** What follows the first [```] of [s], if there is one. *)
Fixpoint after_fence (s : jsstring) : option jsstring :=
  match s with
  | [] => None
  | _ :: r => if starts_with fence s then Some (skipn 3 s) else after_fence r
  end.

(** [(?:jsx?|tsx?|javascript|typescript)?]: the alternatives in their order,
    each [?] taking its character when it is there. *)
Definition skip_language (s : jsstring) : jsstring :=
  if starts_with (u16 "jsx") s then skipn 3 s
  else if starts_with (u16 "js") s then skipn 2 s
  else if starts_with (u16 "tsx") s then skipn 3 s
  else if starts_with (u16 "ts") s then skipn 2 s
  else if starts_with (u16 "javascript") s then skipn 10 s
  else if starts_with (u16 "typescript") s then skipn 10 s
  else s.

(** [([\s\S]*?)```]: the text before the next [```], if there is one. *)
Fixpoint until_fence (s : jsstring) : option jsstring :=
  match s with
  | [] => None
  | c :: r =>
      if starts_with fence s then Some []
      else match until_fence r with
           | Some captured => Some (c :: captured)
           | None => None
           end
  end.

(** Group 1 of [code.match(/```(?:jsx?|tsx?|javascript|typescript)?\s*([\s\S]*?)```/)].
    The match starts at the leftmost [```].  Neither the language tag nor the
    white space after it contains a backquote, so the first way the engine
    tries (longest tag, all the white space) succeeds whenever any does, and
    when it fails no later starting point succeeds either. *)
Definition code_block (code : jsstring) : option jsstring :=
  match after_fence code with
  | Some r => until_fence (drop_ws (skip_language r))
  | None => None
  end.

Definition too_short : message := Msg (u16 "Response too short to be valid code").

(** The body of the [try] block. *)
Definition try_surgeon (text : jsstring) : completion jsstring :=
  let code := trim text in
  let code := match code_block code with
              | Some captured => trim captured
              | None => code
              end in
  check (negb (length code <? 10)) else_throw too_short ;;
  Normal code.

Module Surgeon.
Record result := { success : bool; error : option message; code : option jsstring }.
End Surgeon.

Definition parseSurgeonResponse (text : jsstring) : Surgeon.result :=
  match try_surgeon text with
  | Normal c =>
      {| Surgeon.success := true; Surgeon.error := None; Surgeon.code := Some c |}
  | Throw e =>
      {| Surgeon.success := false; Surgeon.error := Some e; Surgeon.code := None |}
  end.

End SafeParse.

(* ================================================================== *)
(** ** [lib/usage-tracker.js]

    Every number of the ledger is a JavaScript number, that is a binary64
    float, and the arithmetic below is the float arithmetic of the source. *)

Module UsageTracker.
Import JS.

Module Pricing.
Record t := { input : option float; output : option float; perImage : option float }.
End Pricing.

(** The [PRICING] table.  A name that is not a key of the table reads as
    [undefined]; model and endpoint names are taken not to be names that
    every object inherits, such as [constructor]. *)
Definition PRICING (model : jsstring) : option Pricing.t :=
  if str_eqb model (u16 "gemini-3-pro-preview") then
    Some {| Pricing.input := Some 0.00025%float; Pricing.output := Some 0.0005%float;
            Pricing.perImage := None |}
  else if str_eqb model (u16 "gemini-2.0-flash-preview-image-generation") then
    Some {| Pricing.input := None; Pricing.output := None;
            Pricing.perImage := Some 0.02%float |}
  else if str_eqb model (u16 "gemini-2.0-flash") then
    Some {| Pricing.input := Some 0.0001%float; Pricing.output := Some 0.0002%float;
            Pricing.perImage := None |}
  else None.

Definition DEFAULT_BUDGET : float := 10.00%float.

(** [x || d] for a number [x] that may be [undefined]: zero and NaN are falsy. *)
Definition num_or (x : option float) (d : float) : float :=
  match x with
  | Some v => if (PrimFloat.eqb v 0 || PrimFloat.is_nan v)%bool then d else v
  | None => d
  end.

Module Session.
Record t := { startTime : jsstring; budget : float; budgetUsed : float }.
End Session.

Module Totals.
Record t := {
  apiCalls : float; inputTokens : float; outputTokens : float;
  imagesGenerated : float; estimatedCost : float
}.
End Totals.

Module ModelUsage.
Record t := { calls : float; inputTokens : float; outputTokens : float; cost : float }.
End ModelUsage.

Module EndpointUsage.
Record t := { calls : float; cost : float }.
End EndpointUsage.

Module Call.
Record t := {
  timestamp : jsstring; model : jsstring; endpoint : jsstring;
  inputTokens : float; outputTokens : float; isImage : bool;
  cost : float; prompt : jsstring
}.
End Call.

Module Asset.
Record t := {
  timestamp : jsstring; filename : jsstring; prompt : jsstring;
  model : jsstring; path : jsstring
}.
End Asset.

Record ledger := {
  session : Session.t;
  totals : Totals.t;
  byModel : gmap jsstring ModelUsage.t;
  byEndpoint : gmap jsstring EndpointUsage.t;
  history : list Call.t;
  assets : list Asset.t
}.

(** The tracker object together with its file [usage-data.json]; [writable]
    says whether [fs.writeFileSync] succeeds on it. *)
Record tracker := { data : ledger; usage_file : option ledger; writable : bool }.

(** [getDefaultData()], at the time [now]. *)
Definition getDefaultData (now : jsstring) : ledger :=
  {| session := {| Session.startTime := now; Session.budget := DEFAULT_BUDGET;
                   Session.budgetUsed := 0 |};
     totals := {| Totals.apiCalls := 0; Totals.inputTokens := 0;
                  Totals.outputTokens := 0; Totals.imagesGenerated := 0;
                  Totals.estimatedCost := 0 |};
     byModel := ∅;
     byEndpoint := ∅;
     history := [];
     assets := [] |}.

(** [save()]: a failed write is logged and otherwise ignored. *)
Definition save (t : tracker) : tracker :=
  {| data := data t;
     usage_file := if writable t then Some (data t) else usage_file t;
     writable := writable t |}.

Definition set_data (t : tracker) (d : ledger) : tracker :=
  {| data := d; usage_file := usage_file t; writable := writable t |}.

Module Tracked.
Record t := { cost : float; budgetRemaining : float; overBudget : bool }.
End Tracked.

(** The cost computed at the head of [track]. *)
Definition call_cost (model : jsstring) (inputTokens outputTokens : float) (isImage : bool)
  : float :=
  let pricing :=
    match PRICING model with
    | Some p => Some p
    | None => PRICING (u16 "gemini-2.0-flash")
    end in
  let field (f : Pricing.t -> option float) :=
    match pricing with Some p => f p | None => None end in
  if isImage then num_or (field Pricing.perImage) 0.02
  else ((inputTokens / 1000) * num_or (field Pricing.input) 0.0001
        + (outputTokens / 1000) * num_or (field Pricing.output) 0.0002)%float.

Definition empty_model_usage : ModelUsage.t :=
  {| ModelUsage.calls := 0; ModelUsage.inputTokens := 0;
     ModelUsage.outputTokens := 0; ModelUsage.cost := 0 |}.

Definition empty_endpoint_usage : EndpointUsage.t :=
  {| EndpointUsage.calls := 0; EndpointUsage.cost := 0 |}.

(** [track({ model, endpoint, inputTokens = 0, outputTokens = 0,
             isImage = false, prompt = '' })] at the time [timestamp]. *)
Definition track (model endpoint : jsstring) (inputTokens outputTokens : option float)
    (isImage : option bool) (prompt : option jsstring)
    (timestamp : jsstring) (t : tracker) : Tracked.t * tracker :=
  let inputTokens := default 0%float inputTokens in
  let outputTokens := default 0%float outputTokens in
  let isImage := default false isImage in
  let prompt := default [] prompt in
  let d := data t in
  let cost := call_cost model inputTokens outputTokens isImage in
  let totals' :=
    {| Totals.apiCalls := (Totals.apiCalls (totals d) + 1)%float;
       Totals.inputTokens := (Totals.inputTokens (totals d) + inputTokens)%float;
       Totals.outputTokens := (Totals.outputTokens (totals d) + outputTokens)%float;
       Totals.imagesGenerated :=
         if isImage then (Totals.imagesGenerated (totals d) + 1)%float
         else Totals.imagesGenerated (totals d);
       Totals.estimatedCost := (Totals.estimatedCost (totals d) + cost)%float |} in
  let session' :=
    {| Session.startTime := Session.startTime (session d);
       Session.budget := Session.budget (session d);
       Session.budgetUsed := (Session.budgetUsed (session d) + cost)%float |} in
  let m := default empty_model_usage (byModel d !! model) in
  let m' :=
    {| ModelUsage.calls := (ModelUsage.calls m + 1)%float;
       ModelUsage.inputTokens := (ModelUsage.inputTokens m + inputTokens)%float;
       ModelUsage.outputTokens := (ModelUsage.outputTokens m + outputTokens)%float;
       ModelUsage.cost := (ModelUsage.cost m + cost)%float |} in
  let e := default empty_endpoint_usage (byEndpoint d !! endpoint) in
  let e' :=
    {| EndpointUsage.calls := (EndpointUsage.calls e + 1)%float;
       EndpointUsage.cost := (EndpointUsage.cost e + cost)%float |} in
  let entry :=
    {| Call.timestamp := timestamp; Call.model := model; Call.endpoint := endpoint;
       Call.inputTokens := inputTokens; Call.outputTokens := outputTokens;
       Call.isImage := isImage; Call.cost := cost;
       Call.prompt := substring0 100 prompt |} in
  let history' := entry :: history d in
  let history' := if 100 <? length history' then firstn 100 history' else history' in
  let d' :=
    {| session := session'; totals := totals';
       byModel := <[model := m']> (byModel d);
       byEndpoint := <[endpoint := e']> (byEndpoint d);
       history := history'; assets := assets d |} in
  ({| Tracked.cost := cost;
      Tracked.budgetRemaining := (Session.budget session' - Session.budgetUsed session')%float;
      Tracked.overBudget := PrimFloat.ltb (Session.budget session') (Session.budgetUsed session') |},
   save (set_data t d')).

Module Budget.
Record t := { allowed : bool; remaining : float; estimatedCost : float }.
End Budget.

(** [checkBudget(estimatedCost = 0.01)] *)
Definition checkBudget (estimatedCost : option float) (t : tracker) : Budget.t :=
  let estimatedCost := default 0.01%float estimatedCost in
  let remaining :=
    (Session.budget (session (data t)) - Session.budgetUsed (session (data t)))%float in
  {| Budget.allowed := PrimFloat.leb estimatedCost remaining;
     Budget.remaining := remaining;
     Budget.estimatedCost := estimatedCost |}.

(** [setBudget(amount)] *)
Definition setBudget (amount : float) (t : tracker) : tracker :=
  let d := data t in
  save (set_data t
    {| session := {| Session.startTime := Session.startTime (session d);
                     Session.budget := amount;
                     Session.budgetUsed := Session.budgetUsed (session d) |};
       totals := totals d; byModel := byModel d; byEndpoint := byEndpoint d;
       history := history d; assets := assets d |}).

(** [resetSession()], at the time [now]. *)
Definition resetSession (now : jsstring) (t : tracker) : tracker :=
  save (set_data t (getDefaultData now)).

(** [trackAsset({ filename, prompt, model, path })] at the time [now]. *)
Definition trackAsset (filename prompt model path now : jsstring) (t : tracker) : tracker :=
  let d := data t in
  save (set_data t
    {| session := session d; totals := totals d;
       byModel := byModel d; byEndpoint := byEndpoint d; history := history d;
       assets := {| Asset.timestamp := now; Asset.filename := filename;
                    Asset.prompt := prompt; Asset.model := model;
                    Asset.path := path |} :: assets d |}).

(** [UsageTracker.estimateTokens(text)]: [Math.ceil(text.length / 4)], and 0
    for a missing or empty text.  The quotient by 4 is exact in binary64, so
    the ceiling is that of the rational. *)
Definition estimateTokens (text : option jsstring) : nat :=
  match text with
  | None | Some [] => 0
  | Some s => (length s + 3) / 4
  end.

End UsageTracker.

(* ================================================================== *)
(** ** [agents/artist.js] and the [/api/generate-asset] route of [server.js] *)

Module Server.
Import JS JS.Notations.

(** One element of [candidates[0].content.parts]. *)
Module Part.
Record inline := { data : option jsstring; mimeType : option jsstring }.
Record file := { fileUri : option jsstring; fileMimeType : option jsstring }.
Record t := { inlineData : option inline; fileData : option file }.
End Part.

(** What a call of the image model's [generateContent] comes to: it throws,
    or it answers with the parts of its first candidate, if it has any. *)
Inductive image_reply :=
| ImageFails (e : message)
| ImageResponse (parts : option (list Part.t)).

(** The server as far as this route is concerned: the usage tracker and the
    prompts sent to the image model so far, latest first. *)
Record server := {
  usageTracker : UsageTracker.tracker;
  image_requests : list jsstring
}.

Module Generated.
Record t := {
  success : bool;
  base64 : option jsstring;
  url : option jsstring;
  mimeType : option jsstring;
  error : option message
}.
End Generated.

Definition str_truthy (s : option jsstring) : bool :=
  match s with Some (_ :: _) => true | _ => false end.

(** [a || b] on strings that may be [undefined]. *)
Definition str_or (a : option jsstring) (b : jsstring) : jsstring :=
  match a with Some (c :: r) => c :: r | _ => b end.

Inductive scan :=
| FoundInline (data : option jsstring) (mime : jsstring)
| FoundFile (f : Part.file)
| FoundNothing.

(** The [for] loop over the parts: the first part with [inlineData] ends the
    loop, the first part with [fileData] ends the function. *)
Fixpoint scan_parts (parts : list Part.t) : scan :=
  match parts with
  | [] => FoundNothing
  | p :: rest =>
      match Part.inlineData p, Part.fileData p with
      | Some i, _ => FoundInline (Part.data i) (str_or (Part.mimeType i) (u16 "image/png"))
      | None, Some f => FoundFile f
      | None, None => scan_parts rest
      end
  end.

Definition no_image_data : message :=
  Msg (u16 "No image data in response - check response structure").

Definition failed (e : message) : Generated.t :=
  {| Generated.success := false; Generated.base64 := None; Generated.url := None;
     Generated.mimeType := None; Generated.error := Some e |}.

Definition contextPrompts (context : jsstring) : option jsstring :=
  if str_eqb context (u16 "avatar") then
    Some (u16 "circular crop, centered subject, suitable for profile picture, 1:1 aspect ratio")
  else if str_eqb context (u16 "icon") then
    Some (u16 "simple, recognizable, works at small sizes, transparent background, 1:1 aspect ratio")
  else if str_eqb context (u16 "hero") then
    Some (u16 "16:9 aspect ratio, 4K resolution, ultra high quality, cinematic, wide shot, suitable for header background")
  else if str_eqb context (u16 "card") then
    Some (u16 "16:9 aspect ratio, high quality, balanced composition, suitable for card thumbnail")
  else if str_eqb context (u16 "general") then
    Some (u16 "16:9 aspect ratio, 4K resolution, ultra high quality, professional, web-ready")
  else None.

Definition themePrompts (theme : jsstring) : option jsstring :=
  if str_eqb theme (u16 "dark") then
    Some (u16 "designed for dark UI, high contrast, vibrant colors against dark backgrounds, dramatic lighting")
  else if str_eqb theme (u16 "light") then
    Some (u16 "designed for light UI, soft colors, works on white backgrounds, bright and airy")
  else None.

Definition enhancedPrompt (prompt context theme : jsstring) : jsstring :=
  prompt ++ u16 ". "
  ++ str_or (contextPrompts context) (default [] (contextPrompts (u16 "general")))
  ++ u16 ". " ++ str_or (themePrompts theme) []
  ++ u16 ". 4K, ultra detailed, professional photography quality".

(** The body of a request: [{ prompt, context, theme }], each possibly absent. *)
Module Body.
Record t := {
  prompt : option jsstring;
  context : option jsstring;
  theme : option jsstring
}.
End Body.

Section Route.

(** The image model: its answer to the [k]-th request, carrying [prompt]. *)
Variable imageModel : nat -> jsstring -> image_reply.

(** [generateAsset(prompt, {})]: no output path, no style. *)
Definition generateAsset (fullPrompt : jsstring) (s : server) : Generated.t * server :=
  let reply := imageModel (length (image_requests s)) fullPrompt in
  let s' := {| usageTracker := usageTracker s;
               image_requests := fullPrompt :: image_requests s |} in
  match reply with
  | ImageFails e => (failed e, s')
  | ImageResponse parts =>
      match scan_parts (default [] parts) with
      | FoundFile f =>
          ({| Generated.success := true; Generated.base64 := None;
              Generated.url := Part.fileUri f;
              Generated.mimeType := Part.fileMimeType f;
              Generated.error := None |}, s')
      | FoundInline imageData mime =>
          if str_truthy imageData then
            ({| Generated.success := true; Generated.base64 := imageData;
                Generated.url := None; Generated.mimeType := Some mime;
                Generated.error := None |}, s')
          else (failed no_image_data, s')
      | FoundNothing => (failed no_image_data, s')
      end
  end.

(** [generateUIAsset(prompt, { context, theme })] *)
Definition generateUIAsset (prompt context theme : jsstring) (s : server)
  : Generated.t * server :=
  generateAsset (enhancedPrompt prompt context theme) s.

(** The JSON sent back.  Amounts of money that the source prints with
    [toFixed(4)] are kept as the numbers they are. *)
Inductive answer :=
| MissingPrompt
    (* { error: "Missing required field: prompt" } *)
| BudgetExceeded (budgetRemaining : float)
    (* { success: false, error: `Budget exceeded. Remaining: $...`, budgetRemaining } *)
| AssetGenerated (image url mimeType : option jsstring) (cost budgetRemaining : float)
    (* { success: true, image, url, mimeType, usage: { cost, budgetRemaining } } *)
| GenerationFailed (error : option message)
    (* { success: false, error } *)
| InternalError (e : message).
    (* { error: e.message } *)

Record response := { status : Z; json : answer }.

Definition nonempty_or_null (s : option jsstring) : option jsstring :=
  if str_truthy s then s else None.

(** [app.post("/api/generate-asset", ...)]; [body] is [req.body], [None] when
    the request has none, and [now] is the time of the call. *)
Definition generate_asset (body : option Body.t) (now : jsstring) (s : server)
  : response * server :=
  match body with
  | None => ({| status := 500; json := InternalError EngineTypeError |}, s)
  | Some b =>
      let context := default (u16 "general") (Body.context b) in
      let theme := default (u16 "dark") (Body.theme b) in
      match Body.prompt b with
      | Some ((_ :: _) as prompt) =>
          let budgetCheck := UsageTracker.checkBudget (Some 0.02%float) (usageTracker s) in
          if negb (UsageTracker.Budget.allowed budgetCheck) then
            ({| status := 402;
                json := BudgetExceeded (UsageTracker.Budget.remaining budgetCheck) |}, s)
          else
            let '(result, s1) := generateUIAsset prompt context theme s in
            if Generated.success result then
              let '(usage, tr) :=
                UsageTracker.track (u16 "gemini-2.0-flash-preview-image-generation")
                  (u16 "/api/generate-asset") None None (Some true) (Some prompt)
                  now (usageTracker s1) in
              ({| status := 200;
                  json := AssetGenerated
                            (nonempty_or_null (Generated.base64 result))
                            (nonempty_or_null (Generated.url result))
                            (Generated.mimeType result)
                            (UsageTracker.Tracked.cost usage)
                            (UsageTracker.Tracked.budgetRemaining usage) |},
               {| usageTracker := tr; image_requests := image_requests s1 |})
            else
              ({| status := 500; json := GenerationFailed (Generated.error result) |}, s1)
      | _ => ({| status := 400; json := MissingPrompt |}, s)
      end
  end.

End Route.

(** *** Other routes of [server.js] *)

(** [[a-zA-Z0-9.-]] *)
Definition is_safe_char (c : N) : bool :=
  (N.leb 97 c && N.leb c 122) || (N.leb 65 c && N.leb c 90)
  || (N.leb 48 c && N.leb c 57) || N.eqb c 46 || N.eqb c 45.


(** The [amount] of a request to [/api/usage/budget], as the JSON body
    parser delivers it: nothing, a number, or a value of another type. *)
Inductive amount_field :=
| AmountAbsent
| AmountNumber (amount : float)
| AmountOther.

Inductive budget_answer :=
| InvalidBudget                      (* { error: "Invalid budget amount" } *)
| BudgetSet (newBudget : float)      (* { success: true, newBudget } *)
| BudgetError (e : message).         (* { error: e.message } *)

(** [app.post("/api/usage/budget", ...)]; [body] is [req.body]. *)
Definition usage_budget (body : option amount_field) (t : UsageTracker.tracker)
  : (Z * budget_answer) * UsageTracker.tracker :=
  match body with
  | None => ((500%Z, BudgetError EngineTypeError), t)
  | Some (AmountNumber amount) =>
      if PrimFloat.leb amount 0 then ((400%Z, InvalidBudget), t)
      else ((200%Z, BudgetSet amount), UsageTracker.setBudget amount t)
  | Some _ => ((400%Z, InvalidBudget), t)
  end.

(** [s.split("\n")] for a one-character separator [sep]. *)
Fixpoint split (sep : N) (s : jsstring) : list jsstring :=
  match s with
  | [] => [[]]
  | c :: r =>
      if N.eqb c sep then [] :: split sep r
      else match split sep r with
           | l :: ls => (c :: l) :: ls
           | [] => [[c]]
           end
  end.

Inductive change_type := Added | Removed | Changed.

Module Change.
Record t := { line : nat; type : change_type; original : jsstring; fixed : jsstring }.
End Change.

(** The [for] loop of [/api/diff], with [count] lines still to compare from
    index [i] on; a line that is missing reads as the empty line. *)
Fixpoint diff_from (count i : nat) (originalLines fixedLines : list jsstring)
  : list Change.t :=
  match count with
  | O => []
  | S count' =>
      let origLine := nth i originalLines [] in
      let fixedLine := nth i fixedLines [] in
      (if str_eqb origLine fixedLine then []
       else [{| Change.line := i + 1;
                Change.type := match origLine, fixedLine with
                               | [], _ => Added
                               | _ :: _, [] => Removed
                               | _ :: _, _ :: _ => Changed
                               end;
                Change.original := origLine;
                Change.fixed := fixedLine |}])
      ++ diff_from count' (S i) originalLines fixedLines
  end.

Definition line_diff (original fixed : jsstring) : list Change.t :=
  let originalLines := split 10 original in
  let fixedLines := split 10 fixed in
  diff_from (Nat.max (length originalLines) (length fixedLines)) 0
            originalLines fixedLines.

Module DiffBody.
Record t := { original : option jsstring; fixed : option jsstring }.
End DiffBody.

Inductive diff_answer :=
| DiffMissingFields                  (* { error: "Missing required fields: original and fixed" } *)
| DiffResult (totalChanges : nat) (diff : list Change.t)
| DiffError (e : message).

(** [app.post("/api/diff", ...)] *)
Definition diff (body : option DiffBody.t) : Z * diff_answer :=
  match body with
  | None => (500%Z, DiffError EngineTypeError)
  | Some b =>
      match DiffBody.original b, DiffBody.fixed b with
      | Some ((_ :: _) as original), Some ((_ :: _) as fixed) =>
          let d := line_diff original fixed in
          (200%Z, DiffResult (length d) d)
      | _, _ => (400%Z, DiffMissingFields)
      end
  end.

(** What [model.startChat(...)], [chat.sendMessage(message)] and
    [response.text()] come to: one of them throws, or there is a text,
    possibly with [usageMetadata]. *)
Inductive chat_reply :=
| ChatFails (e : message)
| ChatText (text : jsstring) (usageMetadata : bool).

Module ChatBody.
Record t := {
  message : option jsstring;
  context : option jsstring;
  history : option (list jsval)
}.
End ChatBody.

Inductive chat_answer :=
| MessageRequired                          (* { error: "Message is required" } *)
| ChatResponse (response : jsstring)        (* { success: true, response, usage } *)
| ChatError (e : message).                 (* { error: e.message } *)

(** [history.map(msg => ({ role: msg.role === 'user' ? ... }))] reads a
    member of every entry, which throws on [null]. *)
Fixpoint chatHistory (history : list jsval) : completion unit :=
  match history with
  | [] => Normal tt
  | msg :: rest =>
      _ <- get msg (u16 "role") ;;
      _ <- get msg (u16 "content") ;;
      chatHistory rest
  end.

(** The methods of the class [UsageTracker] of [lib/usage-tracker.js], which
    the object [usageTracker] of the server is an instance of. *)
Definition tracker_methods : list jsstring :=
  [u16 "load"; u16 "getDefaultData"; u16 "save"; u16 "track"; u16 "trackAsset";
   u16 "getSummary"; u16 "checkBudget"; u16 "setBudget"; u16 "resetSession"].

Definition tracker_has (name : jsstring) : bool :=
  existsb (str_eqb name) tracker_methods.

Section Chat.

(** The chat model: its answer to the [k]-th message sent. *)
Variable chatModel : nat -> jsstring -> chat_reply.

(** [app.post("/api/chat", ...)]; [sent] are the messages handed to the
    model's chat ([startChat] and [sendMessage]) so far, latest first.
    Calling a member that the tracker object lacks throws a [TypeError],
    which the [catch] block of the route answers. *)
Definition chat (body : option ChatBody.t) (sent : list jsstring)
  : (Z * chat_answer) * list jsstring :=
  match body with
  | None => ((500%Z, ChatError EngineTypeError), sent)
  | Some b =>
      match ChatBody.message b with
      | Some ((_ :: _) as message) =>
          match chatHistory (default [] (ChatBody.history b)) with
          | Throw e => ((500%Z, ChatError e), sent)
          | Normal _ =>
              let reply := chatModel (length sent) message in
              let sent := message :: sent in
              match reply with
              | ChatFails e => ((500%Z, ChatError e), sent)
              | ChatText response usageMetadata =>
                  if usageMetadata && negb (tracker_has (u16 "trackRequest"))
                  then ((500%Z, ChatError EngineTypeError), sent)
                  else if negb (tracker_has (u16 "getUsage"))
                  then ((500%Z, ChatError EngineTypeError), sent)
                  else ((200%Z, ChatResponse response), sent)
              end
          end
      | _ => ((400%Z, MessageRequired), sent)
      end
  end.

End Chat.

End Server.

(* ================================================================== *)
(** ** The overlay's [mergeDefects]

    In the overlay a defect is whatever the local analyser or the server's
    JSON put in the list: an object, or a bare string in the legacy format. *)

Module Overlay.
Import JS JS.Notations.

Section Merge.

(** [String.prototype.toLowerCase], the engine's Unicode case mapping. *)
Variable toLowerCase : jsstring -> jsstring.

(** [v?.toLowerCase().substring(0, 30)]: [undefined] for a missing or [null]
    [v]; a [TypeError] for a value that has no [toLowerCase] to call. *)
Definition issueKey (v : option jsval) : completion (option jsstring) :=
  match v with
  | None | Some JNull => Normal None
  | Some (JString s) => Normal (Some (substring0 30 (toLowerCase s)))
  | Some _ => Throw EngineTypeError
  end.

(** [d => d.issue?.toLowerCase().substring(0, 30)] *)
Definition local_key (d : jsval) : completion (option jsstring) :=
  i <- get d (u16 "issue") ;;
  issueKey i.

(** [(typeof apiDefect === 'string' ? apiDefect : apiDefect.issue)
      ?.toLowerCase().substring(0, 30)] *)
Definition api_key (apiDefect : jsval) : completion (option jsstring) :=
  match apiDefect with
  | JString _ => issueKey (Some apiDefect)
  | _ => i <- get apiDefect (u16 "issue") ;; issueKey i
  end.

(** [api.forEach(apiDefect => { ... merged.push(apiDefect) ... })] *)
Fixpoint forEach_api (localIssues : gset (option jsstring)) (api merged : list jsval)
  : completion (list jsval) :=
  match api with
  | [] => Normal merged
  | apiDefect :: rest =>
      k <- api_key apiDefect ;;
      forEach_api localIssues rest
        (if bool_decide (k ∈ localIssues) then merged else merged ++ [apiDefect])
  end.

Definition mergeDefects (local api : list jsval) : completion (list jsval) :=
  let merged := local in
  keys <- map_indexed (fun d _ => local_key d) 0 local ;;
  let localIssues : gset (option jsstring) := list_to_set keys in
  forEach_api localIssues api merged.

End Merge.

End Overlay.

(* ================================================================== *)
(** ** [agents/inspector.js], [agents/surgeon.js] and [orchestrator.js] *)

Module Orchestrator.
Import JS JS.Notations.

(** The two Gemini clients, told apart by their system prompt. *)
Inductive agent := TheInspector | TheSurgeon.

(** What a call of [model.generateContent] followed by [response.text()]
    comes to. *)
Inductive reply :=
| Text (t : jsstring)
| Fails (e : message).

Inductive event :=
| CallInspect (imagePath : jsstring)
| CallOperate
| CallModel (a : agent)
| WriteFile (path content : jsstring).

(** The files on disk and what has happened so far, latest first. *)
Record world := { files : gmap jsstring jsstring; events : list event }.

Definition record (e : event) (w : world) : world :=
  {| files := files w; events := e :: events w |}.

Definition is_call_model (e : event) : bool :=
  match e with CallModel _ => true | _ => false end.
Definition is_call_inspect (e : event) : bool :=
  match e with CallInspect _ => true | _ => false end.
Definition is_call_operate (e : event) : bool :=
  match e with CallOperate => true | _ => false end.

Definition model_calls (w : world) : nat := length (List.filter is_call_model (events w)).
Definition inspections (w : world) : nat := length (List.filter is_call_inspect (events w)).
Definition operations (w : world) : nat := length (List.filter is_call_operate (events w)).

(** [fs.writeFileSync(path, content)] *)
Definition writeFileSync (path content : jsstring) (w : world) : world :=
  {| files := <[path := content]> (files w);
     events := WriteFile path content :: events w |}.

Module Inspection.
Record t := {
  success : bool;
  error : option message;
  data : option SafeParse.report
}.
End Inspection.

Module Options.
Record t := {
  screenshotPath : jsstring;
  codePath : jsstring;
  autoApply : option bool;
  verify : option bool;
  maxIterations : option Z
}.
End Options.

Inductive inspection_field :=
| InspectionNull
| InspectionError (e : option message)         (* { error: inspection.error } *)
| InspectionData (d : SafeParse.report).

Inductive surgery_field :=
| SurgeryNull
| SurgeryError (e : option message)            (* { error: surgery.error } *)
| SurgeryDone (codeLength : nat).              (* { success: true, codeLength } *)

Module Iter.
Record t := {
  iteration : Z;
  inspection : inspection_field;
  surgery : surgery_field;
  verified : bool
}.
End Iter.

(** [result.summary], by the template that produced it. *)
Inductive summary :=
| SummaryEmpty
| InspectionFailed (e : option message)   (* `Inspection failed: ${inspection.error}` *)
| NoDefects                               (* No defects detected, UI passed inspection. *)
| FixedAfter (n : Z)                      (* `Fixed after ${iteration - 1} iteration(s).` *)
| SurgeryFailed (e : option message)      (* `Surgery failed: ${surgery.error}` *)
| FixedDefects (n : nat).                 (* `Fixed ${n} defects.` *)

Module Result.
Record t := {
  success : bool;
  iterations : list Iter.t;
  finalCode : option jsstring;
  previewPath : option jsstring;
  assetPrompt : jsval;
  summary : summary
}.
End Result.

(** The loop's variables. *)
Record frame := { iteration : Z; currentCode : jsstring; result : Result.t }.

(** How one pass through the body of the [while] ends: at its closing brace,
    at a [break], at a [return], or with an exception. *)
Inductive step :=
| Next (f : frame)
| Break (f : frame)
| Return (r : Result.t)
| Raise (e : message).

(** How the [while] statement as a whole ends: control reaches the statement
    after it, or the function is left. *)
Inductive exit :=
| LoopDone (f : frame)
| Returned (r : Result.t)
| Raised (e : message).

(** How the promise of [runFlowState] settles. *)
Inductive outcome :=
| Resolved (r : Result.t)
| Rejected (e : message).

Section Pipeline.

(** The Gemini service: its reply to the [k]-th call made in this world. *)
Variable gemini : agent -> nat -> reply.

(** Node's [path] module. *)
Variables (extname dirname : jsstring -> jsstring).
Variables (basename join : jsstring -> jsstring -> jsstring).

Definition generateContent (a : agent) (w : world) : reply * world :=
  (gemini a (model_calls w), record (CallModel a) w).

(** [inspect(imagePath)] *)
Definition inspect (imagePath : jsstring) (w : world) : Inspection.t * world :=
  let w := record (CallInspect imagePath) w in
  match files w !! imagePath with
  | None =>
      ({| Inspection.success := false;
          Inspection.error := Some (Msg (u16 "File not found: " ++ imagePath));
          Inspection.data := None |}, w)
  | Some _ =>
      let '(r, w) := generateContent TheInspector w in
      match r with
      | Text responseText =>
          let parsed := SafeParse.parseInspectorResponse responseText in
          ({| Inspection.success := SafeParse.Inspector.success parsed;
              Inspection.error := SafeParse.Inspector.error parsed;
              Inspection.data := Some (SafeParse.Inspector.data parsed) |}, w)
      | Fails e =>
          ({| Inspection.success := false; Inspection.error := Some e;
              Inspection.data := None |}, w)
      end
  end.

(** [operateOnCode(code, defects)] *)
Definition operateOnCode (code : jsstring) (defects : list SafeParse.defect) (w : world)
  : SafeParse.Surgeon.result * world :=
  let w := record CallOperate w in
  match defects with
  | [] =>
      ({| SafeParse.Surgeon.success := false;
          SafeParse.Surgeon.error := Some (Msg (u16 "No defects provided"));
          SafeParse.Surgeon.code := None |}, w)
  | _ :: _ =>
      let '(r, w) := generateContent TheSurgeon w in
      match r with
      | Text responseText => (SafeParse.parseSurgeonResponse responseText, w)
      | Fails e =>
          ({| SafeParse.Surgeon.success := false; SafeParse.Surgeon.error := Some e;
              SafeParse.Surgeon.code := None |}, w)
      end
  end.

Definition push (r : Result.t) (it : Iter.t) : list Iter.t := Result.iterations r ++ [it].

Section Run.

Variable options : Options.t.

Let screenshotPath := Options.screenshotPath options.
Let codePath := Options.codePath options.
Let autoApply := default false (Options.autoApply options).
Let verify := default true (Options.verify options).
Let maxIterations := default 2%Z (Options.maxIterations options).

(** The body of the [while] loop. *)
Definition body (f : frame) (w : world) : step * world :=
  let iteration := (iteration f + 1)%Z in
  let res := result f in
  let '(inspection, w) := inspect screenshotPath w in
  if negb (Inspection.success inspection) then
    (Return {| Result.success := Result.success res;
               Result.iterations :=
                 push res {| Iter.iteration := iteration;
                             Iter.inspection := InspectionError (Inspection.error inspection);
                             Iter.surgery := SurgeryNull; Iter.verified := false |};
               Result.finalCode := Result.finalCode res;
               Result.previewPath := Result.previewPath res;
               Result.assetPrompt := Result.assetPrompt res;
               Result.summary := InspectionFailed (Inspection.error inspection) |}, w)
  else
    match Inspection.data inspection with
    | None => (Raise EngineTypeError, w)
    | Some data =>
        if truthy (SafeParse.looks_good data) then
          (Return {| Result.success := true;
                     Result.iterations :=
                       push res {| Iter.iteration := iteration;
                                   Iter.inspection := InspectionData data;
                                   Iter.surgery := SurgeryNull; Iter.verified := false |};
                     Result.finalCode := Some (currentCode f);
                     Result.previewPath := Result.previewPath res;
                     Result.assetPrompt := Result.assetPrompt res;
                     Result.summary :=
                       if (iteration =? 1)%Z then NoDefects else FixedAfter (iteration - 1) |},
           w)
        else
          let assetPrompt :=
            if truthy (SafeParse.needs_asset_generation data)
            then SafeParse.asset_generation_prompt data
            else Result.assetPrompt res in
          let '(surgery, w) :=
            operateOnCode (currentCode f) (SafeParse.visual_defects data) w in
          if negb (SafeParse.Surgeon.success surgery) then
            (Return {| Result.success := Result.success res;
                       Result.iterations :=
                         push res {| Iter.iteration := iteration;
                                     Iter.inspection := InspectionData data;
                                     Iter.surgery :=
                                       SurgeryError (SafeParse.Surgeon.error surgery);
                                     Iter.verified := false |};
                       Result.finalCode := Result.finalCode res;
                       Result.previewPath := Result.previewPath res;
                       Result.assetPrompt := assetPrompt;
                       Result.summary := SurgeryFailed (SafeParse.Surgeon.error surgery) |},
             w)
          else
            match SafeParse.Surgeon.code surgery with
            | None => (Raise EngineTypeError, w)
            | Some code =>
                let f' :=
                  {| iteration := iteration;
                     currentCode := code;
                     result :=
                       {| Result.success := Result.success res;
                          Result.iterations :=
                            push res {| Iter.iteration := iteration;
                                        Iter.inspection := InspectionData data;
                                        Iter.surgery := SurgeryDone (length code);
                                        Iter.verified := false |};
                          Result.finalCode := Result.finalCode res;
                          Result.previewPath := Result.previewPath res;
                          Result.assetPrompt := assetPrompt;
                          Result.summary := Result.summary res |} |} in
                if negb verify then
                  (Break f', w)     (* skipping verification *)
                else
                  (Break f', w)     (* exit loop: verification needs external trigger *)
            end
    end.

(** [while (iteration < maxIterations) { ... }], with [fuel] passes allowed;
    [None] when they do not suffice. *)
Fixpoint while (fuel : nat) (f : frame) (w : world) : option (exit * world) :=
  if (iteration f <? maxIterations)%Z then
    match fuel with
    | O => None
    | S fuel' =>
        match body f w with
        | (Next f', w') => while fuel' f' w'
        | (Break f', w') => Some (LoopDone f', w')
        | (Return r, w') => Some (Returned r, w')
        | (Raise e, w') => Some (Raised e, w')
        end
    end
  else Some (LoopDone f, w).

(** [result.iterations[0]?.inspection?.visual_defects?.length || 0] *)
Definition first_defect_count (its : list Iter.t) : nat :=
  match its with
  | it :: _ =>
      match Iter.inspection it with
      | InspectionData d => length (SafeParse.visual_defects d)
      | _ => 0
      end
  | [] => 0
  end.

(** [runFlowState(options)]; [None] only if the loop were to run out of the
    passes that [maxIterations] allows. *)
Definition runFlowState (w : world) : option (outcome * world) :=
  match files w !! codePath with
  | None => Some (Rejected (NoSuchFile codePath), w)
  | Some code =>
      let start :=
        {| iteration := 0; currentCode := code;
           result := {| Result.success := false; Result.iterations := [];
                        Result.finalCode := None; Result.previewPath := None;
                        Result.assetPrompt := JNull; Result.summary := SummaryEmpty |} |} in
      match while (Z.to_nat maxIterations) start w with
      | None => None
      | Some (Returned r, w) => Some (Resolved r, w)
      | Some (Raised e, w) => Some (Rejected e, w)
      | Some (LoopDone f, w) =>
          let ext := extname codePath in
          let base := basename codePath ext in
          let dir := dirname codePath in
          let previewPath := join dir (base ++ u16 ".flowstate-preview" ++ ext) in
          let w := writeFileSync previewPath (currentCode f) w in
          let w := if autoApply then writeFileSync codePath (currentCode f) w else w in
          Some (Resolved
                  {| Result.success := true;
                     Result.iterations := Result.iterations (result f);
                     Result.finalCode := Some (currentCode f);
                     Result.previewPath := Some previewPath;
                     Result.assetPrompt := Result.assetPrompt (result f);
                     Result.summary :=
                       FixedDefects (first_defect_count (Result.iterations (result f))) |},
                w)
      end
  end.

End Run.

(** [inspectBase64(base64Image, mimeType)]: no file is involved. *)
Definition inspectBase64 (w : world) : Inspection.t * world :=
  let '(r, w) := generateContent TheInspector w in
  match r with
  | Text responseText =>
      let parsed := SafeParse.parseInspectorResponse responseText in
      ({| Inspection.success := SafeParse.Inspector.success parsed;
          Inspection.error := SafeParse.Inspector.error parsed;
          Inspection.data := Some (SafeParse.Inspector.data parsed) |}, w)
  | Fails e =>
      ({| Inspection.success := false; Inspection.error := Some e;
          Inspection.data := None |}, w)
  end.

(** What [runFlowStateAPI] resolves to. *)
Inductive api_result :=
| ApiFailed (error : option message) (step : jsstring)
    (* { success: false, error, step } *)
| ApiLooksGood (code : jsstring)
    (* { success: true, looks_good: true, message: "No defects detected", code } *)
| ApiFixed (defects : list SafeParse.defect) (fixedCode : option jsstring)
           (needsAsset assetPrompt : jsval).
    (* { success: true, looks_good: false, defects, fixedCode, needsAsset, assetPrompt } *)

(** [runFlowStateAPI({ screenshotBase64, code, mimeType })] *)
Definition runFlowStateAPI (code : jsstring) (w : world) : completion api_result * world :=
  let '(inspection, w) := inspectBase64 w in
  if negb (Inspection.success inspection) then
    (Normal (ApiFailed (Inspection.error inspection) (u16 "inspect")), w)
  else
    match Inspection.data inspection with
    | None => (Throw EngineTypeError, w)
    | Some data =>
        if truthy (SafeParse.looks_good data) then (Normal (ApiLooksGood code), w)
        else
          let '(surgery, w) := operateOnCode code (SafeParse.visual_defects data) w in
          if negb (SafeParse.Surgeon.success surgery) then
            (Normal (ApiFailed (SafeParse.Surgeon.error surgery) (u16 "surgery")), w)
          else
            (Normal (ApiFixed (SafeParse.visual_defects data)
                       (SafeParse.Surgeon.code surgery)
                       (SafeParse.needs_asset_generation data)
                       (SafeParse.asset_generation_prompt data)), w)
    end.



End Pipeline.

(** Node's [path] functions on a bare file name such as [Card.jsx] (not [.]
    or [..]): no directory part, and an extension that starts at the last dot
    when that dot is not the first character. *)
Module BareName.
Fixpoint last_dot (s : jsstring) : option jsstring :=
  match s with
  | [] => None
  | c :: r =>
      match last_dot r with
      | Some e => Some e
      | None => if N.eqb c 46 then Some s else None
      end
  end.
Definition extname (p : jsstring) : jsstring :=
  match p with
  | [] => []
  | _ :: r => default [] (last_dot r)
  end.
Definition basename (p ext : jsstring) : jsstring :=
  if (str_eqb (skipn (length p - length ext) p) ext && negb (str_eqb p ext))%bool
  then firstn (length p - length ext) p else p.
Definition dirname (p : jsstring) : jsstring := u16 ".".
Definition join (dir file : jsstring) : jsstring :=
  if str_eqb dir (u16 ".") then file else dir ++ u16 "/" ++ file.
End BareName.

End Orchestrator.

(* ================================================================== *)
(** ** Vocabulary of the properties

    The predicates in which the properties below are stated. *)

Module SafeParseSpec.
Import JS JS.Notations SafeParse.

Definition is_boolean (v : jsval) : bool :=
  match v with JBool _ => true | _ => false end.

Definition is_string_or_null (v : jsval) : bool :=
  match v with JString _ | JNull => true | _ => false end.

(** The DefectReport shape: [looks_good] and [needs_asset_generation] are
    booleans and [asset_generation_prompt] is a string or [null]
    ([visual_defects] is a list by its type). *)
Definition report_shape (r : report) : bool :=
  is_boolean (looks_good r) && is_boolean (needs_asset_generation r)
  && is_string_or_null (asset_generation_prompt r).

(** The member [k] of a parsed value, [undefined] when the value is not an
    object or has no such member. *)
Definition member (parsed : jsval) (k : jsstring) : option jsval :=
  match parsed with
  | JObject ms => find_last k ms None
  | _ => None
  end.

(** The three required fields are there with their types. *)
Definition top_level_valid (parsed : jsval) : bool :=
  match member parsed (u16 "looks_good"),
        member parsed (u16 "visual_defects"),
        member parsed (u16 "needs_asset_generation") with
  | Some (JBool _), Some (JArray _), Some (JBool _) => true
  | _, _, _ => false
  end.

(** Parsing the cleaned text fails, or the parsed value fails the check of
    its top-level fields. *)
Definition fails_top_level (text : jsstring) : bool :=
  match JSON.parse (clean text) with
  | Throw _ => true
  | Normal parsed => negb (top_level_valid parsed)
  end.

Definition falsy_or_absent (o : option jsval) : bool :=
  match o with Some v => negb (truthy v) | None => true end.

End SafeParseSpec.

Module LedgerSpec.
Import UsageTracker.

(** With the default budget replaced by 0.01 and nothing spent. *)
Definition one_cent (t : tracker) : Prop :=
  Session.budget (session (data t)) = 0.01%float /\
  Session.budgetUsed (session (data t)) = 0%float.

End LedgerSpec.

Module OverlaySpec.
Import JS Overlay.



End OverlaySpec.

Module OrchestratorSpec.
Import JS SafeParse Orchestrator.

(** The inspector's reply is a report that does not look good and lists at
    least one defect. *)
Definition reports_defects (r : reply) : bool :=
  match r with
  | Text t =>
      let p := parseInspectorResponse t in
      Inspector.success p
      && negb (truthy (looks_good (Inspector.data p)))
      && match visual_defects (Inspector.data p) with [] => false | _ :: _ => true end
  | Fails _ => false
  end.

(** The surgeon's reply is accepted as code. *)
Definition patches (r : reply) : bool :=
  match r with
  | Text t => Surgeon.success (parseSurgeonResponse t)
  | Fails _ => false
  end.

Definition set_verify (o : Options.t) (v : option bool) : Options.t :=
  {| Options.screenshotPath := Options.screenshotPath o;
     Options.codePath := Options.codePath o;
     Options.autoApply := Options.autoApply o;
     Options.verify := v;
     Options.maxIterations := Options.maxIterations o |}.

Section Heals.

Variable gemini : agent -> nat -> reply.
Variables (extname dirname : jsstring -> jsstring).
Variables (basename join : jsstring -> jsstring -> jsstring).

(** Starting in [w], the run ends after exactly [n] iterations ([n] passes,
    so [n] inspections and [n] patches) with success and a preview file
    holding the final code. *)
Definition heals_in (options : Options.t) (w : world) (n : nat) : Prop :=
  exists (r : Result.t) (w' : world),
    runFlowState gemini extname dirname basename join options w = Some (Resolved r, w') /\
    Result.success r = true /\
    length (Result.iterations r) = n /\
    inspections w' = inspections w + n /\
    operations w' = operations w + n /\
    exists p, Result.previewPath r = Some p /\ files w' !! p = Result.finalCode r.

End Heals.

(** How a pass ends.  It never reaches the closing brace of the loop. *)
Definition pass_ok (f : frame) (s : step) : Prop :=
  match s with
  | Next _ => False
  | Break f' =>
      length (Result.iterations (result f')) = S (length (Result.iterations (result f)))
  | Return r => length (Result.iterations r) = S (length (Result.iterations (result f)))
  | Raise _ => True
  end.

(** A scripted service: the inspector always reports one defect and the
    surgeon always answers with code. *)
Definition scripted (a : agent) (k : nat) : reply :=
  match a with
  | TheInspector =>
      Text (dq "{'looks_good':false,'visual_defects':['Button padding too small'],'needs_asset_generation':false}")
  | TheSurgeon => Text (u16 "const fixed = true;")
  end.

Definition scripted_world : world :=
  {| files := <[u16 "Card.jsx" := u16 "const broken = 1;"]> (<[u16 "shot.png" := []]> ∅);
     events := [] |}.

Definition scripted_options (maxIterations : Z) : Options.t :=
  {| Options.screenshotPath := u16 "shot.png";
     Options.codePath := u16 "Card.jsx";
     Options.autoApply := None;
     Options.verify := None;
     Options.maxIterations := Some maxIterations |}.

End OrchestratorSpec.

Module NormaliserSpec.
Import JS SafeParse SafeParseSpec.

Definition is_null (v : jsval) : bool :=
  match v with JNull => true | _ => false end.

(** The entry brings no id of its own: it is a bare string, or its [id] is
    absent or falsy. *)
Definition lacks_id (d : jsval) : bool :=
  match d with
  | JString _ => true
  | _ => falsy_or_absent (member d (u16 "id"))
  end.

Definition no_backquote (s : jsstring) : bool :=
  forallb (fun c => negb (N.eqb c 96)) s.

(** [t] between a [```json] line and a closing [```] line. *)
Definition fenced (t : jsstring) : jsstring :=
  u16 "```json" ++ [10%N] ++ t ++ [10%N] ++ u16 "```".

End NormaliserSpec.

Module LedgerOps.
Import JS UsageTracker.

(** The calls that change the ledger. *)
Inductive op :=
| Track (model endpoint : jsstring) (inputTokens outputTokens : option float)
        (isImage : option bool) (prompt : option jsstring) (timestamp : jsstring)
| TrackAsset (filename prompt model path now : jsstring)
| SetBudget (amount : float)
| ResetSession (now : jsstring).

Definition apply (o : op) (t : tracker) : tracker :=
  match o with
  | Track model endpoint inputTokens outputTokens isImage prompt timestamp =>
      snd (track model endpoint inputTokens outputTokens isImage prompt timestamp t)
  | TrackAsset filename prompt model path now =>
      trackAsset filename prompt model path now t
  | SetBudget amount => setBudget amount t
  | ResetSession now => resetSession now t
  end.

(** The calls of [ops], one after the other. *)
Definition run (ops : list op) (t : tracker) : tracker :=
  fold_left (fun t o => apply o t) ops t.

(** What the session has used is what the totals say was spent. *)
Definition in_sync (t : tracker) : Prop :=
  Session.budgetUsed (session (data t)) = Totals.estimatedCost (totals (data t)).

End LedgerOps.

Module ServerSpec.
Import JS Server.

(** The entry that [/api/diff] reports for the line at index [i]. *)
Definition change_at (ol fl : list jsstring) (i : nat) : Change.t :=
  {| Change.line := i + 1;
     Change.type := match nth i ol [], nth i fl [] with
                    | [], _ => Added
                    | _ :: _, [] => Removed
                    | _ :: _, _ :: _ => Changed
                    end;
     Change.original := nth i ol [];
     Change.fixed := nth i fl [] |}.

End ServerSpec.

(* ================================================================== *)
(** * Properties of the response normaliser *)

Section SafeParseFacts.
Import JS JS.Notations SafeParse SafeParseSpec.

Lemma get_member (v : jsval) (k : jsstring) (o : option jsval) :
  get v k = Normal o -> o = member v k.
Proof. destruct v; simpl; intros H; inversion H; reflexivity. Qed.

Lemma get_not_null (v : jsval) (k k' : jsstring) (o : option jsval) :
  get v k = Normal o -> get v k' = Normal (member v k').
Proof. destruct v; simpl; intros H; try discriminate; reflexivity. Qed.

Lemma map_indexed_lookup {A B} (f : A -> nat -> completion B) (xs : list A) :
  forall (k : nat) (ys : list B) (i : nat) (x : A),
    map_indexed f k xs = Normal ys ->
    xs !! i = Some x ->
    exists y, ys !! i = Some y /\ f x (k + i) = Normal y.
Proof.
  induction xs as [|x0 xs IH]; intros k ys i x Hmap Hx.
  - destruct i; discriminate.
  - simpl in Hmap.
    destruct (f x0 k) as [y0|] eqn:Hy0; simpl in Hmap; [|discriminate].
    destruct (map_indexed f (S k) xs) as [ys'|] eqn:Hys; simpl in Hmap; [|discriminate].
    inversion Hmap; subst ys; clear Hmap.
    destruct i as [|i]; simpl in *.
    + inversion Hx; subst. exists y0. rewrite Nat.add_0_r. auto.
    + destruct (IH (S k) ys' i x Hys Hx) as [y [Hl Hf]].
      exists y. split; [assumption|].
      replace (k + S i) with (S k + i) by lia. assumption.
Qed.

(** What a successful validation returns. *)
Lemma validate_Normal (parsed : jsval) (r : report) :
  validate parsed = Normal r ->
  exists lg ds nag nds,
    member parsed (u16 "looks_good") = Some (JBool lg) /\
    member parsed (u16 "visual_defects") = Some (JArray ds) /\
    member parsed (u16 "needs_asset_generation") = Some (JBool nag) /\
    map_indexed normalize 0 ds = Normal nds /\
    r = {| looks_good := JBool lg; visual_defects := nds;
           needs_asset_generation := JBool nag;
           asset_generation_prompt :=
             or_else (member parsed (u16 "asset_generation_prompt")) JNull |}.
Proof.
  unfold validate. intros H.
  destruct (get parsed (u16 "looks_good")) as [o1|] eqn:H1; simpl in H; [|discriminate].
  destruct o1 as [[| lg | | | |]|]; try discriminate.
  rewrite (get_not_null _ _ (u16 "visual_defects") _ H1) in H. simpl in H.
  destruct (member parsed (u16 "visual_defects")) as [[| | | |ds|]|] eqn:H2;
    try discriminate.
  rewrite (get_not_null _ _ (u16 "needs_asset_generation") _ H1) in H. simpl in H.
  destruct (member parsed (u16 "needs_asset_generation")) as [[|nag| | | |]|] eqn:H3;
    try discriminate.
  destruct (map_indexed normalize 0 ds) as [nds|] eqn:H4; simpl in H; [|discriminate].
  rewrite (get_not_null _ _ (u16 "asset_generation_prompt") _ H1) in H. simpl in H.
  inversion H; subst r; clear H.
  exists lg, ds, nag, nds.
  rewrite <- (get_member _ _ _ H1). auto.
Qed.

Lemma validate_invalid (parsed : jsval) :
  top_level_valid parsed = false -> exists e, validate parsed = Throw e.
Proof.
  intros H. destruct (validate parsed) as [r|e] eqn:Hv; [|eauto].
  destruct (validate_Normal _ _ Hv) as (lg & ds & nag & nds & H1 & H2 & H3 & _).
  unfold top_level_valid in H. rewrite H1, H2, H3 in H. discriminate.
Qed.

Lemma or_else_truthy (o : option jsval) (v : jsval) :
  or_else o JNull = v -> v = JNull \/ (truthy v = true /\ o = Some v).
Proof.
  unfold or_else. destruct o as [x|]; [|auto].
  destruct (truthy x) eqn:Hx; intros <-; auto.
Qed.

(** The result is a success built from the validated value, or the failure
    with the fallback report. *)
Lemma parseInspectorResponse_cases (text : jsstring) :
  (exists parsed r, JSON.parse (clean text) = Normal parsed /\
                    validate parsed = Normal r /\
                    parseInspectorResponse text =
                      {| Inspector.success := true; Inspector.error := None;
                         Inspector.data := r |})
  \/ (exists e, parseInspectorResponse text =
                  {| Inspector.success := false; Inspector.error := Some e;
                     Inspector.data := fallback |}).
Proof.
  unfold parseInspectorResponse, try_inspector.
  destruct (JSON.parse (clean text)) as [parsed|e]; simpl; [|eauto].
  destruct (validate parsed) as [r|e] eqn:Hv; [|eauto].
  left. eauto.
Qed.

(** C1 as stated fails: a response whose [asset_generation_prompt] is [true]
    passes the three checks and is returned with that member unchanged,
    neither a string nor [null]. *)
Lemma inspector_shape_counterexample :
  let text := dq "{'looks_good':true,'visual_defects':[],'needs_asset_generation':false,'asset_generation_prompt':true}" in
  Inspector.success (parseInspectorResponse text) = true /\
  asset_generation_prompt (Inspector.data (parseInspectorResponse text)) = JBool true /\
  report_shape (Inspector.data (parseInspectorResponse text)) = false.
Proof. vm_compute. auto. Qed.

(** C1, amended.  For every input string, [parseInspectorResponse] returns a
    result (its [try]/[catch] lets no exception out) whose [data] has a boolean
    [looks_good], a list of defects, a boolean [needs_asset_generation], and
    an [asset_generation_prompt] that is [null] or else the truthy
    [asset_generation_prompt] member of the parsed response, passed on as it
    is; so it is a string or [null] whenever the response gave a string. *)
Theorem inspector_shape (text : jsstring) :
  let d := Inspector.data (parseInspectorResponse text) in
  is_boolean (looks_good d) = true /\
  is_boolean (needs_asset_generation d) = true /\
  (asset_generation_prompt d = JNull \/
   (truthy (asset_generation_prompt d) = true /\
    exists parsed,
      JSON.parse (clean text) = Normal parsed /\
      member parsed (u16 "asset_generation_prompt") = Some (asset_generation_prompt d))).
Proof.
  destruct (parseInspectorResponse_cases text)
    as [(parsed & r & Hp & Hv & ->) | (e & ->)]; simpl.
  - destruct (validate_Normal _ _ Hv) as (lg & ds & nag & nds & _ & _ & _ & _ & ->).
    simpl. repeat split.
    destruct (or_else_truthy (member parsed (u16 "asset_generation_prompt")) _ eq_refl)
      as [H | [H1 H2]]; [left; exact H|].
    right. split; [exact H1|]. exists parsed. auto.
  - repeat split. left. reflexivity.
Qed.

(** C2.  When parsing or the check of the top-level fields fails, and whenever
    the [catch] block is taken at all, the result is the fallback report:
    [looks_good] false, exactly one defect, with id [defect-parse-error] and
    the parse-error issue text, and [needs_asset_generation] false. *)
Theorem inspector_fallback (text : jsstring)
    (H : fails_top_level text = true \/
         Inspector.success (parseInspectorResponse text) = false) :
  let r := parseInspectorResponse text in
  Inspector.success r = false /\
  looks_good (Inspector.data r) = JBool false /\
  needs_asset_generation (Inspector.data r) = JBool false /\
  exists d,
    visual_defects (Inspector.data r) = [d] /\
    id d = JString (u16 "defect-parse-error") /\
    issue d = JString ([9888; 65039]%N ++ u16 " Parse error " ++ [8212%N]
                       ++ u16 " manual review required").
Proof.
  assert (Hf : Inspector.success (parseInspectorResponse text) = false).
  { destruct H as [H | H]; [|exact H].
    unfold fails_top_level in H.
    unfold parseInspectorResponse, try_inspector.
    destruct (JSON.parse (clean text)) as [parsed|e]; simpl; [|reflexivity].
    apply negb_true_iff in H.
    destruct (validate_invalid _ H) as [e ->]. reflexivity. }
  destruct (parseInspectorResponse_cases text)
    as [(parsed & r & _ & _ & Hr) | (e & Hr)]; rewrite Hr in *; simpl in *.
  - discriminate.
  - repeat split. exists parse_error_defect. repeat split.
Qed.

Lemma inspector_fallback_witness :
  let r := parseInspectorResponse (dq "{'looks_good':'yes'") in
  Inspector.success r = false /\
  looks_good (Inspector.data r) = JBool false /\
  needs_asset_generation (Inspector.data r) = JBool false /\
  exists d,
    visual_defects (Inspector.data r) = [d] /\
    id d = JString (u16 "defect-parse-error") /\
    issue d = JString ([9888; 65039]%N ++ u16 " Parse error " ++ [8212%N]
                       ++ u16 " manual review required").
Proof.
  apply (inspector_fallback (dq "{'looks_good':'yes'")).
  left. vm_compute. reflexivity.
Defined.

(** The issue of a normalised rich entry: [defect.issue || defect.description
    || "Unknown issue"]. *)
Lemma normalize_rich_issue (d : jsval) (index : nat) (nd : defect) :
  typeof d <> TString ->
  normalize d index = Normal nd ->
  issue nd = or_else (or_undef (member d (u16 "issue")) (member d (u16 "description")))
                     (JString (u16 "Unknown issue")).
Proof.
  intros Hty Hn.
  destruct d; simpl in Hty; try congruence;
    cbn [normalize get bind member] in Hn; try discriminate;
    inversion Hn; reflexivity.
Qed.

(** C10.  In a successfully parsed report, a rich entry (one that is not a
    bare string) whose [issue] is absent or falsy and whose [description] is a
    non-empty string gets that description as its [issue]; the default
    [Unknown issue] is taken when both are absent or falsy, and only then: a
    truthy [issue], or else a truthy [description], is passed on as it is. *)
Theorem description_fallback (text : jsstring) (parsed : jsval) (ds : list jsval)
    (i : nat) (d : jsval)
    (Hparse : JSON.parse (clean text) = Normal parsed)
    (Hok : Inspector.success (parseInspectorResponse text) = true)
    (Hds : member parsed (u16 "visual_defects") = Some (JArray ds))
    (Hd : ds !! i = Some d)
    (Hrich : typeof d <> TString) :
  exists nd,
    visual_defects (Inspector.data (parseInspectorResponse text)) !! i = Some nd /\
    (falsy_or_absent (member d (u16 "issue")) = true ->
     forall s, member d (u16 "description") = Some (JString s) -> s <> [] ->
               issue nd = JString s) /\
    (falsy_or_absent (member d (u16 "issue")) = true ->
     falsy_or_absent (member d (u16 "description")) = true ->
     issue nd = JString (u16 "Unknown issue")) /\
    (falsy_or_absent (member d (u16 "issue")) = false ->
     member d (u16 "issue") = Some (issue nd)) /\
    (falsy_or_absent (member d (u16 "issue")) = true ->
     falsy_or_absent (member d (u16 "description")) = false ->
     member d (u16 "description") = Some (issue nd)).
Proof.
  destruct (parseInspectorResponse_cases text)
    as [(parsed' & r & Hp & Hv & Hr) | (e & Hr)]; rewrite Hr in *; simpl in *;
    [|discriminate].
  rewrite Hparse in Hp. inversion Hp; subst parsed'; clear Hp.
  destruct (validate_Normal _ _ Hv) as (lg & ds' & nag & nds & _ & Hds' & _ & Hmap & ->).
  rewrite Hds in Hds'. inversion Hds'; subst ds'; clear Hds'.
  destruct (map_indexed_lookup _ _ _ _ _ _ Hmap Hd) as (nd & Hnd & Hnorm).
  exists nd. split; [exact Hnd|].
  rewrite (normalize_rich_issue _ _ _ Hrich Hnorm).
  unfold falsy_or_absent, or_else, or_undef.
  destruct (member d (u16 "issue")) as [vi|];
    destruct (member d (u16 "description")) as [vd|];
    try destruct (truthy vi) eqn:Hvi; try destruct (truthy vd) eqn:Hvd;
    simpl; rewrite ?Hvi, ?Hvd; simpl; rewrite ?Hvi, ?Hvd;
    repeat split; intros; try discriminate; try reflexivity.
  all: match goal with
       | H : Some _ = Some (JString ?s) |- _ => inversion H; subst; try reflexivity
       end.
  all: match goal with
       | Hn : ?s <> [] |- _ => destruct s; [congruence | simpl in *; discriminate]
       end.
Qed.

Lemma description_fallback_witness :
  let text := dq "{'looks_good':false,'visual_defects':[{'issue':'','description':'Low contrast'}],'needs_asset_generation':false}" in
  exists nd,
    visual_defects (Inspector.data (parseInspectorResponse text)) !! 0 = Some nd /\
    issue nd = JString (u16 "Low contrast").
Proof.
  intros text.
  destruct (description_fallback text
              (JObject [(u16 "looks_good", JBool false);
                        (u16 "visual_defects",
                         JArray [JObject [(u16 "issue", JString []);
                                          (u16 "description", JString (u16 "Low contrast"))]]);
                        (u16 "needs_asset_generation", JBool false)])
              [JObject [(u16 "issue", JString []);
                        (u16 "description", JString (u16 "Low contrast"))]]
              0
              (JObject [(u16 "issue", JString []);
                        (u16 "description", JString (u16 "Low contrast"))]))
    as (nd & Hnd & Hdescr & _).
  - vm_compute. reflexivity.
  - vm_compute. reflexivity.
  - vm_compute. reflexivity.
  - reflexivity.
  - simpl. discriminate.
  - exists nd. split; [exact Hnd|].
    apply Hdescr.
    + vm_compute. reflexivity.
    + vm_compute. reflexivity.
    + discriminate.
Defined.

(** C6.  [parseSurgeonResponse("ok")] fails, with the too-short error and a
    [null] code; the fenced [const x = 1;] succeeds with exactly that code;
    and for every text, success comes with a code and failure with [null]. *)
Theorem surgeon_response :
  (let r := parseSurgeonResponse (u16 "ok") in
   Surgeon.success r = false /\ Surgeon.code r = None /\
   Surgeon.error r = Some (Msg (u16 "Response too short to be valid code"))) /\
  (let r := parseSurgeonResponse
              (u16 "```jsx" ++ [10%N] ++ u16 "const x = 1;" ++ [10%N] ++ u16 "```") in
   Surgeon.success r = true /\ Surgeon.code r = Some (u16 "const x = 1;")) /\
  (forall text : jsstring,
     let r := parseSurgeonResponse text in
     (Surgeon.success r = true -> exists c, Surgeon.code r = Some c) /\
     (Surgeon.success r = false -> Surgeon.code r = None)).
Proof.
  split; [vm_compute; auto|].
  split; [vm_compute; auto|].
  intros text. unfold parseSurgeonResponse.
  destruct (try_surgeon text) as [c|e]; simpl; split; intros H;
    try discriminate; eauto.
Qed.

End SafeParseFacts.

(* ================================================================== *)
(** * Properties of the usage ledger and of the budget gate *)

Section LedgerFacts.
Import JS UsageTracker.

Lemma track_totals (model endpoint : jsstring) (inputTokens outputTokens : option float)
    (isImage : option bool) (prompt : option jsstring) (now : jsstring) (t : tracker) :
  let r := track model endpoint inputTokens outputTokens isImage prompt now t in
  let cost := call_cost model (default 0%float inputTokens) (default 0%float outputTokens)
                (default false isImage) in
  Tracked.cost (fst r) = cost /\
  Totals.estimatedCost (totals (data (snd r)))
    = (Totals.estimatedCost (totals (data t)) + cost)%float /\
  Totals.imagesGenerated (totals (data (snd r)))
    = if default false isImage
      then (Totals.imagesGenerated (totals (data t)) + 1)%float
      else Totals.imagesGenerated (totals (data t)).
Proof. repeat split. Qed.

(** An image call costs the flat price, whatever the model and the token
    counts. *)
Lemma image_cost (model : jsstring) (inputTokens outputTokens : float) :
  call_cost model inputTokens outputTokens true = 0.02%float.
Proof.
  unfold call_cost, PRICING.
  destruct (str_eqb model (u16 "gemini-3-pro-preview")); [reflexivity|].
  destruct (str_eqb model (u16 "gemini-2.0-flash-preview-image-generation"));
    [reflexivity|].
  destruct (str_eqb model (u16 "gemini-2.0-flash")); reflexivity.
Qed.

(** C8 as stated fails: the totals are binary64 numbers and [+=] rounds.
    From a fresh ledger, the ninth call of the kind described raises the
    stored total by another amount than 0.0005 (the two totals are close
    enough for their difference to be computed without rounding); on a ledger
    whose total is 1e16 the call leaves the total where it was, and an image
    call there leaves both the total and, at 2^53, the image count where
    they were. *)
Lemma track_accounting_counterexample :
  let call := fun t : tracker =>
    snd (track (u16 "gemini-3-pro-preview") (u16 "/api/inspect")
               (Some 1000%float) (Some 500%float) None None [] t) in
  let image := fun t : tracker =>
    snd (track (u16 "gemini-2.0-flash-preview-image-generation") (u16 "/api/generate-asset")
               None None (Some true) None [] t) in
  let total := fun t : tracker => Totals.estimatedCost (totals (data t)) in
  let images := fun t : tracker => Totals.imagesGenerated (totals (data t)) in
  let fresh := {| data := getDefaultData []; usage_file := None; writable := true |} in
  let t8 := Nat.iter 8 call fresh in
  let big :=
    set_data fresh
      {| session := session (data fresh);
         totals := {| Totals.apiCalls := 0; Totals.inputTokens := 0;
                      Totals.outputTokens := 0;
                      Totals.imagesGenerated := 9007199254740992;
                      Totals.estimatedCost := 1e16 |};
         byModel := byModel (data fresh); byEndpoint := byEndpoint (data fresh);
         history := []; assets := [] |} in
  PRICING (u16 "gemini-3-pro-preview")
    = Some {| Pricing.input := Some 0.00025%float; Pricing.output := Some 0.0005%float;
              Pricing.perImage := None |} /\
  PrimFloat.eqb (total (call t8) - total t8) 0.0005 = false /\
  total (call big) = total big /\
  images (image big) = images big /\
  total (image big) = total big.
Proof. vm_compute. repeat split. Qed.

(** C8, amended.  The totals are binary64 numbers and an increase is the
    [+=] of the source, which rounds: a call that is not an image call, with
    1000 input and 500 output tokens on a model priced 0.00025 and 0.0005 per
    1K tokens, costs exactly 0.0005, sets [totals.estimatedCost] to the
    binary64 sum of its old value and 0.0005 and leaves
    [totals.imagesGenerated] alone; an image call sets
    [totals.imagesGenerated] to the binary64 sum of its old value and 1 and
    [totals.estimatedCost] to that of its old value and the flat per-image
    price, 0.02, whatever its model and token counts. *)
Theorem track_accounting (t : tracker) (endpoint now : jsstring) (prompt : option jsstring) :
  (forall (model : jsstring) (isImage : option bool) (p : Pricing.t),
     PRICING model = Some p ->
     Pricing.input p = Some 0.00025%float ->
     Pricing.output p = Some 0.0005%float ->
     default false isImage = false ->
     let r := track model endpoint (Some 1000%float) (Some 500%float)
                isImage prompt now t in
     Tracked.cost (fst r) = 0.0005%float /\
     Totals.estimatedCost (totals (data (snd r)))
       = (Totals.estimatedCost (totals (data t)) + 0.0005)%float /\
     Totals.imagesGenerated (totals (data (snd r)))
       = Totals.imagesGenerated (totals (data t)))
  /\
  (forall (model : jsstring) (inputTokens outputTokens : option float),
     let r := track model endpoint inputTokens outputTokens (Some true) prompt now t in
     Tracked.cost (fst r) = 0.02%float /\
     Totals.imagesGenerated (totals (data (snd r)))
       = (Totals.imagesGenerated (totals (data t)) + 1)%float /\
     Totals.estimatedCost (totals (data (snd r)))
       = (Totals.estimatedCost (totals (data t)) + 0.02)%float).
Proof.
  split.
  - intros model isImage p Hp Hin Hout Himg r.
    assert (Hc : call_cost model 1000 500 false = 0.0005%float).
    { unfold call_cost. rewrite Hp, Hin, Hout. reflexivity. }
    destruct (track_totals model endpoint (Some 1000%float) (Some 500%float)
                isImage prompt now t) as (Hret & Hcost & Himages).
    fold r in Hret, Hcost, Himages.
    rewrite Hret, Hcost, Himages, Himg. simpl default. rewrite Hc. auto.
  - intros model inputTokens outputTokens r.
    destruct (track_totals model endpoint inputTokens outputTokens (Some true)
                prompt now t) as (Hret & Hcost & Himages).
    fold r in Hret, Hcost, Himages.
    rewrite Hret, Hcost, Himages. simpl default. rewrite image_cost. auto.
Qed.

Lemma track_accounting_witness :
  let t0 := {| data := getDefaultData []; usage_file := None; writable := true |} in
  let r := track (u16 "gemini-3-pro-preview") (u16 "/api/inspect")
             (Some 1000%float) (Some 500%float) None None [] t0 in
  Tracked.cost (fst r) = 0.0005%float /\
  Totals.estimatedCost (totals (data (snd r))) = 0.0005%float /\
  Totals.imagesGenerated (totals (data (snd r))) = 0%float.
Proof.
  intros t0 r.
  destruct (track_accounting t0 (u16 "/api/inspect") [] None) as [H _].
  destruct (H (u16 "gemini-3-pro-preview") None
              {| Pricing.input := Some 0.00025%float; Pricing.output := Some 0.0005%float;
                 Pricing.perImage := None |}) as (H0 & H1 & H2).
  - vm_compute. reflexivity.
  - reflexivity.
  - reflexivity.
  - reflexivity.
  - fold t0 r in H0, H1, H2. rewrite H0, H1, H2. repeat split.
Defined.

(** C9.  After [resetSession()] the ledger is the default record: the budget
    is back at 10.00 whatever [setBudget] had set, the session start time is
    the time of the reset, and counters, history and [budgetUsed] are those of
    the default record. *)
Theorem reset_replaces_ledger (t : tracker) (amount : float) (now : jsstring) :
  data (resetSession now t) = getDefaultData now /\
  data (resetSession now (setBudget amount t)) = getDefaultData now /\
  Session.budget (session (data (resetSession now (setBudget amount t)))) = 10.00%float /\
  Session.startTime (session (data (resetSession now (setBudget amount t)))) = now /\
  Session.budgetUsed (session (data (resetSession now (setBudget amount t)))) = 0%float.
Proof. repeat split. Qed.

End LedgerFacts.

Section BudgetGate.
Import JS UsageTracker Server LedgerSpec.

(** C7.  [checkBudget] allows a call exactly when the binary64 difference
    [budget - budgetUsed] is at least the estimated cost; with a budget of
    0.01, nothing used and an estimate of 0.02 it does not; and in that state
    the [/api/generate-asset] route, for any request that carries a prompt,
    answers 402 with the budget-exceeded error, and for any request at all
    leaves the server as it was: nothing is sent to the image model. *)
Theorem budget_gate :
  (forall (t : tracker) (estimatedCost : float),
     Budget.allowed (checkBudget (Some estimatedCost) t) = true <->
     PrimFloat.leb estimatedCost
       (Session.budget (session (data t)) - Session.budgetUsed (session (data t)))%float
     = true)
  /\
  (forall t : tracker,
     one_cent t -> Budget.allowed (checkBudget (Some 0.02%float) t) = false)
  /\
  (forall (imageModel : nat -> jsstring -> image_reply) (body : option Body.t)
          (now : jsstring) (s : server),
     one_cent (usageTracker s) ->
     snd (generate_asset imageModel body now s) = s /\
     image_requests (snd (generate_asset imageModel body now s)) = image_requests s /\
     (forall (b : Body.t) (c : N) (rest : jsstring),
        body = Some b -> Body.prompt b = Some (c :: rest) ->
        fst (generate_asset imageModel body now s)
          = {| status := 402; json := BudgetExceeded 0.01%float |})).
Proof.
  assert (Hgate : forall t, one_cent t ->
            checkBudget (Some 0.02%float) t
            = {| Budget.allowed := false; Budget.remaining := 0.01%float;
                 Budget.estimatedCost := 0.02%float |}).
  { intros t [Hb Hu]. unfold checkBudget. simpl. rewrite Hb, Hu. reflexivity. }
  split; [|split].
  - intros t estimatedCost. reflexivity.
  - intros t Ht. rewrite (Hgate t Ht). reflexivity.
  - intros imageModel body now s Hs.
    assert (Hsame : snd (generate_asset imageModel body now s) = s).
    { unfold generate_asset.
      destruct body as [b|]; [|reflexivity].
      destruct (Body.prompt b) as [[|c rest]|]; try reflexivity.
      rewrite (Hgate _ Hs). reflexivity. }
    split; [exact Hsame|]. split; [rewrite Hsame; reflexivity|].
    intros b c rest -> Hprompt.
    unfold generate_asset. rewrite Hprompt, (Hgate _ Hs). reflexivity.
Qed.

Lemma budget_gate_witness :
  let s := {| usageTracker :=
                setBudget 0.01%float
                  {| data := getDefaultData []; usage_file := None; writable := true |};
              image_requests := [] |} in
  let body := Some {| Body.prompt := Some (u16 "a lighthouse at dusk");
                      Body.context := None; Body.theme := None |} in
  let model := fun (_ : nat) (_ : jsstring) => ImageFails (Msg (u16 "unreachable")) in
  fst (generate_asset model body [] s)
    = {| status := 402; json := BudgetExceeded 0.01%float |} /\
  image_requests (snd (generate_asset model body [] s)) = [].
Proof.
  intros s body model.
  destruct budget_gate as (_ & _ & H).
  destruct (H model body [] s) as (_ & Hreq & Hresp).
  - split; reflexivity.
  - split; [|exact Hreq].
    apply (Hresp {| Body.prompt := Some (u16 "a lighthouse at dusk");
                    Body.context := None; Body.theme := None |}
                 97%N (u16 " lighthouse at dusk")); reflexivity.
Defined.

End BudgetGate.

(* ================================================================== *)
(** * Properties of [mergeDefects] *)


Section MergeFacts.
Import JS JS.Notations Overlay OverlaySpec.

Variable toLowerCase : jsstring -> jsstring.







End MergeFacts.



(** A bare string in the local list has no [issue] member, so its key is
    [undefined] there, while as a remote defect its key is its own text:
    merged with itself, a list of legacy strings is doubled. *)
Example merge_legacy_strings :
  Overlay.mergeDefects JS.ascii_toLowerCase
    [JS.JString (JS.u16 "Padding too small")] [JS.JString (JS.u16 "Padding too small")]
  = JS.Normal [JS.JString (JS.u16 "Padding too small");
               JS.JString (JS.u16 "Padding too small")].
Proof. vm_compute. reflexivity. Qed.

(* ================================================================== *)
(** * Properties of the heal loop *)

Section LoopFacts.
Import JS JS.Notations SafeParse Orchestrator OrchestratorSpec.

Variable gemini : agent -> nat -> reply.
Variables (extname dirname : jsstring -> jsstring).
Variables (basename join : jsstring -> jsstring -> jsstring).

Local Abbreviation body := (body gemini).
Local Abbreviation while := (while gemini).
Local Abbreviation runFlowState := (runFlowState gemini extname dirname basename join).

Lemma inspect_effect (imagePath : jsstring) (w : world) :
  files (snd (inspect gemini imagePath w)) = files w /\
  inspections (snd (inspect gemini imagePath w)) = S (inspections w) /\
  operations (snd (inspect gemini imagePath w)) = operations w.
Proof.
  unfold inspect, generateContent. simpl.
  destruct (files w !! imagePath); [|repeat split].
  destruct (gemini TheInspector _); repeat split.
Qed.

Lemma operateOnCode_effect (code : jsstring) (defects : list defect) (w : world) :
  files (snd (operateOnCode gemini code defects w)) = files w /\
  inspections (snd (operateOnCode gemini code defects w)) = inspections w /\
  operations (snd (operateOnCode gemini code defects w)) = S (operations w).
Proof.
  unfold operateOnCode, generateContent. simpl.
  destruct defects; [repeat split|].
  destruct (gemini TheSurgeon _); repeat split.
Qed.

Lemma body_effect (options : Options.t) (f : frame) (w : world) :
  pass_ok f (fst (body options f w)) /\
  files (snd (body options f w)) = files w /\
  inspections (snd (body options f w)) = S (inspections w) /\
  operations (snd (body options f w)) <= S (operations w).
Proof.
  unfold body.
  pose proof (inspect_effect (Options.screenshotPath options) w) as (Hf1 & Hi1 & Ho1).
  destruct (inspect gemini (Options.screenshotPath options) w) as [inspection w1].
  simpl in Hf1, Hi1, Ho1.
  assert (Hpush : forall r it, length (push r it) = S (length (Result.iterations r))).
  { intros r it. unfold push. rewrite length_app. simpl. lia. }
  destruct (negb (Inspection.success inspection)); simpl.
  { rewrite Hpush. repeat split; auto; lia. }
  destruct (Inspection.data inspection) as [data|]; simpl; [|repeat split; auto; lia].
  destruct (truthy (looks_good data)); simpl.
  { rewrite Hpush. repeat split; auto; lia. }
  pose proof (operateOnCode_effect (currentCode f) (visual_defects data) w1)
    as (Hf2 & Hi2 & Ho2).
  destruct (operateOnCode gemini (currentCode f) (visual_defects data) w1)
    as [surgery w2].
  simpl in Hf2, Hi2, Ho2.
  destruct (negb (Surgeon.success surgery)); simpl.
  { rewrite Hpush. repeat split; try congruence; lia. }
  destruct (Surgeon.code surgery) as [code|]; simpl;
    [|repeat split; try congruence; lia].
  destruct (negb (default true (Options.verify options))); simpl;
    rewrite Hpush; repeat split; try congruence; lia.
Qed.

(** The [verify] option does not change what a pass does. *)
Lemma body_verify (options : Options.t) (v : option bool) (f : frame) (w : world) :
  body (set_verify options v) f w = body options f w.
Proof.
  unfold body. simpl.
  destruct (inspect gemini (Options.screenshotPath options) w) as [inspection w1].
  destruct (negb (Inspection.success inspection)); [reflexivity|].
  destruct (Inspection.data inspection) as [data|]; [|reflexivity].
  destruct (truthy (looks_good data)); [reflexivity|].
  destruct (operateOnCode gemini (currentCode f) (visual_defects data) w1)
    as [surgery w2].
  destruct (negb (Surgeon.success surgery)); [reflexivity|].
  destruct (Surgeon.code surgery) as [code|]; [|reflexivity].
  destruct (negb (default true v)), (negb (default true (Options.verify options)));
    reflexivity.
Qed.

Lemma while_verify (options : Options.t) (v : option bool) (fuel : nat) :
  forall (f : frame) (w : world),
    while (set_verify options v) fuel f w = while options fuel f w.
Proof.
  induction fuel as [|fuel IH]; intros f w; simpl; [reflexivity|].
  destruct (iteration f <? _)%Z; [|reflexivity].
  rewrite body_verify.
  destruct (body options f w) as [[f'| | |] w']; auto.
Qed.

Lemma runFlowState_verify (options : Options.t) (v : option bool) (w : world) :
  runFlowState (set_verify options v) w
  = runFlowState (set_verify options (Options.verify options)) w.
Proof.
  unfold Orchestrator.runFlowState. simpl.
  destruct (files w !! Options.codePath options); [|reflexivity].
  rewrite !while_verify. reflexivity.
Qed.

(** The loop as a whole: with a pass allowed, or none asked for, it ends,
    after at most one pass. *)
Lemma while_effect (options : Options.t) (fuel : nat) (f : frame) (w : world) :
  (0 < fuel \/ (iteration f <? default 2%Z (Options.maxIterations options))%Z = false) ->
  exists (e : exit) (w' : world),
    while options fuel f w = Some (e, w') /\
    files w' = files w /\
    inspections w' <= S (inspections w) /\
    operations w' <= S (operations w) /\
    match e with
    | LoopDone f' =>
        length (Result.iterations (result f')) <= S (length (Result.iterations (result f)))
    | Returned r =>
        length (Result.iterations r) <= S (length (Result.iterations (result f)))
    | Raised _ => True
    end.
Proof.
  intros Hfuel.
  destruct fuel as [|fuel]; simpl.
  - destruct Hfuel as [Hfuel | ->]; [lia|].
    exists (LoopDone f), w. repeat split; auto; lia.
  - destruct (iteration f <? _)%Z.
    + pose proof (body_effect options f w) as (Hpass & Hf & Hi & Ho).
      destruct (body options f w) as [[f'|f'|r|e] w']; simpl in *.
      * contradiction.
      * exists (LoopDone f'), w'. repeat split; auto; lia.
      * exists (Returned r), w'. repeat split; auto; lia.
      * exists (Raised e), w'. repeat split; auto; lia.
    + exists (LoopDone f), w. repeat split; auto; lia.
Qed.

Lemma writeFileSync_effect (path content : jsstring) (w : world) :
  inspections (writeFileSync path content w) = inspections w /\
  operations (writeFileSync path content w) = operations w /\
  files (writeFileSync path content w) !! path = Some content.
Proof. repeat split. simpl. apply lookup_insert_eq. Qed.

(** Every run ends, after at most one inspection and one patch, with at most
    one iteration on record. *)
Lemma runFlowState_effect (options : Options.t) (w : world) :
  exists (out : outcome) (w' : world),
    runFlowState options w = Some (out, w') /\
    inspections w' <= S (inspections w) /\
    operations w' <= S (operations w) /\
    match out with
    | Resolved r => length (Result.iterations r) <= 1
    | Rejected _ => True
    end.
Proof.
  unfold Orchestrator.runFlowState.
  destruct (files w !! Options.codePath options) as [code|].
  2: { exists (Rejected (NoSuchFile (Options.codePath options))), w.
       repeat split; lia. }
  match goal with
  | |- context [Orchestrator.while _ _ ?fuel ?f w] =>
      destruct (while_effect options fuel f w) as (e & w' & -> & Hf & Hi & Ho & He)
  end.
  { simpl. destruct (0 <? default 2%Z (Options.maxIterations options))%Z eqn:Hlt; [|auto].
    left. apply Z.ltb_lt in Hlt. lia. }
  destruct e as [f'|r|e]; simpl in He.
  - eexists _, _. split; [reflexivity|].
    destruct (default false (Options.autoApply options)); simpl; repeat split; auto.
  - exists (Resolved r), w'. repeat split; auto.
  - exists (Rejected e), w'. repeat split; auto.
Qed.

Lemma inspect_reports (imagePath : jsstring) (w : world) :
  is_Some (files w !! imagePath) ->
  (forall k, reports_defects (gemini TheInspector k) = true) ->
  exists (i : Inspection.t) (w1 : world) (d : report),
    inspect gemini imagePath w = (i, w1) /\
    Inspection.success i = true /\
    Inspection.data i = Some d /\
    truthy (looks_good d) = false /\
    visual_defects d <> [].
Proof.
  intros [x Hx] Hrep. unfold inspect, generateContent. simpl. rewrite Hx.
  specialize (Hrep (model_calls (record (CallInspect imagePath) w))).
  destruct (gemini TheInspector _) as [t|e]; simpl in Hrep; [|discriminate].
  apply andb_true_iff in Hrep as [Hrep Hds].
  apply andb_true_iff in Hrep as [Hs Hlg].
  apply negb_true_iff in Hlg.
  eexists _, _, _. split; [reflexivity|]. simpl. repeat split; auto.
  intros Hnil. rewrite Hnil in Hds. discriminate.
Qed.

Lemma operateOnCode_patches (code : jsstring) (defects : list defect) (w : world) :
  defects <> [] ->
  (forall k, patches (gemini TheSurgeon k) = true) ->
  exists (s : Surgeon.result) (w2 : world) (c : jsstring),
    operateOnCode gemini code defects w = (s, w2) /\
    Surgeon.success s = true /\
    Surgeon.code s = Some c.
Proof.
  intros Hne Hpatch. unfold operateOnCode, generateContent.
  destruct defects as [|d0 defects]; [congruence|].
  specialize (Hpatch (model_calls (record CallOperate w))).
  destruct (gemini TheSurgeon _) as [t|e]; simpl in Hpatch; [|discriminate].
  unfold parseSurgeonResponse in *.
  destruct (try_surgeon t) as [c|e]; simpl in Hpatch; [|discriminate].
  eexists _, _, c. repeat split.
Qed.

(** A pass that finds defects and gets them patched ends at a [break], with
    one more iteration on record and the patched code in hand. *)
Lemma body_heals (options : Options.t) (f : frame) (w : world) :
  is_Some (files w !! Options.screenshotPath options) ->
  (forall k, reports_defects (gemini TheInspector k) = true) ->
  (forall k, patches (gemini TheSurgeon k) = true) ->
  exists (f' : frame) (w' : world),
    body options f w = (Break f', w') /\
    length (Result.iterations (result f')) = S (length (Result.iterations (result f))) /\
    files w' = files w /\
    inspections w' = S (inspections w) /\
    operations w' = S (operations w).
Proof.
  intros Hshot Hrep Hpatch.
  pose proof (body_effect options f w) as (Hpass & Hf & Hi & _).
  unfold Orchestrator.body in *.
  destruct (inspect_reports _ w Hshot Hrep) as (i & w1 & d & Hins & Hs & Hd & Hlg & Hne).
  pose proof (inspect_effect (Options.screenshotPath options) w) as (_ & _ & Ho1).
  rewrite Hins in *. simpl in Ho1. rewrite Hs, Hd, Hlg in *. simpl in *.
  destruct (operateOnCode_patches (currentCode f) (visual_defects d) w1 Hne Hpatch)
    as (s & w2 & c & Hop & Hss & Hc).
  pose proof (operateOnCode_effect (currentCode f) (visual_defects d) w1) as (_ & _ & Ho2).
  rewrite Hop in *. simpl in Ho2. rewrite Hss, Hc in *. simpl in *.
  destruct (negb (default true (Options.verify options))); simpl in *;
    eexists _, _; (split; [reflexivity|]); simpl; repeat split; auto; lia.
Qed.

(** A pass whose inspection reports defects and whose patch is accepted ends
    at the [break], whatever [verify] says, after one call of each agent. *)
Lemma body_defects_found (options : Options.t) (f : frame) (w : world) :
  is_Some (files w !! Options.screenshotPath options) ->
  reports_defects (gemini TheInspector (model_calls w)) = true ->
  patches (gemini TheSurgeon (S (model_calls w))) = true ->
  exists (f' : frame) (w' : world),
    body options f w = (Break f', w') /\
    length (Result.iterations (result f')) = S (length (Result.iterations (result f))) /\
    files w' = files w /\
    inspections w' = S (inspections w) /\
    operations w' = S (operations w).
Proof.
  intros [x Hx] Hrep Hpatch.
  unfold Orchestrator.body, inspect, generateContent.
  change (files (record (CallInspect (Options.screenshotPath options)) w)) with (files w).
  rewrite Hx.
  change (model_calls (record (CallInspect (Options.screenshotPath options)) w))
    with (model_calls w).
  destruct (gemini TheInspector (model_calls w)) as [t|e]; [|discriminate].
  cbn [reports_defects] in Hrep.
  apply andb_true_iff in Hrep as [Hrep Hds].
  apply andb_true_iff in Hrep as [Hs Hlg].
  apply negb_true_iff in Hlg.
  cbn [Inspection.success Inspection.data]. rewrite Hs, Hlg. cbn [negb].
  unfold operateOnCode, generateContent.
  destruct (visual_defects (Inspector.data (parseInspectorResponse t))) as [|d0 ds];
    [discriminate|].
  match goal with
  | |- context [gemini TheSurgeon ?k] =>
      change k with (S (model_calls w))
  end.
  destruct (gemini TheSurgeon (S (model_calls w))) as [c|e]; [|discriminate].
  cbn [patches] in Hpatch. rewrite Hpatch. cbn [negb].
  unfold parseSurgeonResponse in *.
  destruct (try_surgeon c) as [code|e]; [|discriminate].
  cbn [Surgeon.code].
  destruct (negb (default true (Options.verify options)));
    eexists _, _; (split; [reflexivity|]);
    cbn [result Result.iterations]; unfold push; rewrite length_app;
    cbn [length]; repeat split; lia.
Qed.

End LoopFacts.

Section HealLoop.
Import JS JS.Notations SafeParse Orchestrator OrchestratorSpec.

Variable gemini : agent -> nat -> reply.
Variables (extname dirname : jsstring -> jsstring).
Variables (basename join : jsstring -> jsstring -> jsstring).

Local Abbreviation runFlowState := (runFlowState gemini extname dirname basename join).

(** C3, amended.  For every [maxIterations] N >= 1 a run ends, having made at
    most one inspection call and at most one patch call, hence at most N of
    each; and when the code file and the screenshot exist, the inspection
    service always reports defects and the patch service always succeeds, it
    ends after exactly one iteration (one inspection, one patch), whatever N
    is, with [success = true] and the final code written to the preview
    file. *)
Theorem heal_loop (options : Options.t) (N : Z) (w : world)
    (HN : (1 <= N)%Z)
    (Hmax : Options.maxIterations options = Some N) :
  (exists (out : outcome) (w' : world),
     runFlowState options w = Some (out, w') /\
     inspections w' <= inspections w + 1 /\
     operations w' <= operations w + 1 /\
     (Z.of_nat (inspections w' - inspections w) <= N)%Z /\
     (Z.of_nat (operations w' - operations w) <= N)%Z)
  /\
  (is_Some (files w !! Options.codePath options) ->
   is_Some (files w !! Options.screenshotPath options) ->
   (forall k, reports_defects (gemini TheInspector k) = true) ->
   (forall k, patches (gemini TheSurgeon k) = true) ->
   heals_in gemini extname dirname basename join options w 1).
Proof.
  split.
  - destruct (runFlowState_effect gemini extname dirname basename join options w)
      as (out & w' & Hrun & Hi & Ho & _).
    exists out, w'. repeat split; auto; lia.
  - intros [code Hcode] Hshot Hrep Hpatch.
    unfold heals_in, Orchestrator.runFlowState.
    rewrite Hcode, Hmax. simpl default.
    destruct (Z.to_nat N) as [|fuel] eqn:Hfuel; [lia|].
    simpl Orchestrator.while.
    replace (0 <? default 2%Z (Options.maxIterations options))%Z with true
      by (rewrite Hmax; simpl; symmetry; apply Z.ltb_lt; lia).
    match goal with
    | |- context [Orchestrator.body _ _ ?f w] =>
        destruct (body_heals gemini options f w Hshot Hrep Hpatch)
          as (f' & w' & -> & Hlen & Hf & Hi & Ho)
    end.
    simpl in Hlen.
    eexists _, _. split; [reflexivity|].
    cbn [Result.success Result.iterations Result.previewPath Result.finalCode].
    set (p := join _ _).
    split; [reflexivity|]. split; [exact Hlen|].
    assert (Hp : forall x, files (writeFileSync p (currentCode f') x) !! p
                           = Some (currentCode f'))
      by (intros x; apply writeFileSync_effect).
    destruct (default false (Options.autoApply options)).
    + split; [|split].
      * change (inspections w' = inspections w + 1). lia.
      * change (operations w' = operations w + 1). lia.
      * exists p. split; [reflexivity|].
        destruct (decide (Options.codePath options = p)) as [Heq|Hne].
        -- rewrite Heq. apply Hp.
        -- cbn [writeFileSync files]. rewrite lookup_insert_ne by exact Hne.
           apply lookup_insert_eq.
    + split; [|split].
      * change (inspections w' = inspections w + 1). lia.
      * change (operations w' = operations w + 1). lia.
      * exists p. split; [reflexivity|]. apply Hp.
Qed.

(** C4.  A run with [verify = true] (or with [verify] left to its default)
    and a run with [verify = false] return the same result and leave the same
    world behind, for every screenshot path, code path, [maxIterations] and
    service; no pass of the loop body reaches the closing brace of the loop,
    so either run makes at most one pass and puts at most one iteration on
    record.  And from a state in which defects are found (the code file and
    the screenshot exist, at least one pass is allowed, the inspector's reply
    to the call reports defects and the surgeon's reply to the next call is
    accepted) the run makes exactly one pass, whatever [verify] is: one
    inspection, one patch, one iteration on record, then the loop is left,
    the result is a success and the preview file holds the final code. *)
Theorem verify_is_ignored (options : Options.t) (w : world) :
  runFlowState (set_verify options (Some true)) w
    = runFlowState (set_verify options (Some false)) w /\
  runFlowState (set_verify options None) w
    = runFlowState (set_verify options (Some false)) w /\
  (forall (v : option bool) (f : frame) (w1 : world),
     pass_ok f (fst (body gemini (set_verify options v) f w1))) /\
  (forall (v : option bool) (out : outcome) (w' : world),
     runFlowState (set_verify options v) w = Some (out, w') ->
     inspections w' <= S (inspections w) /\
     operations w' <= S (operations w) /\
     match out with
     | Resolved r => length (Result.iterations r) <= 1
     | Rejected _ => True
     end) /\
  (is_Some (files w !! Options.codePath options) ->
   is_Some (files w !! Options.screenshotPath options) ->
   (1 <= default 2 (Options.maxIterations options))%Z ->
   reports_defects (gemini TheInspector (model_calls w)) = true ->
   patches (gemini TheSurgeon (S (model_calls w))) = true ->
   forall v : option bool,
     heals_in gemini extname dirname basename join (set_verify options v) w 1).
Proof.
  split; [|split; [|split; [|split]]].
  - rewrite (runFlowState_verify gemini extname dirname basename join options (Some true)).
    rewrite (runFlowState_verify gemini extname dirname basename join options (Some false)).
    reflexivity.
  - rewrite (runFlowState_verify gemini extname dirname basename join options None).
    rewrite (runFlowState_verify gemini extname dirname basename join options (Some false)).
    reflexivity.
  - intros v f w1. apply body_effect.
  - intros v out w' Hrun.
    destruct (runFlowState_effect gemini extname dirname basename join
                (set_verify options v) w) as (out' & w'' & Hrun' & H).
    rewrite Hrun in Hrun'. inversion Hrun'; subst. exact H.
  - intros [code Hcode] Hshot HN Hrep Hpatch v.
    unfold heals_in, Orchestrator.runFlowState.
    cbn [set_verify Options.codePath Options.maxIterations Options.autoApply].
    rewrite Hcode.
    destruct (Z.to_nat (default 2%Z (Options.maxIterations options))) as [|fuel] eqn:Hfuel;
      [lia|].
    cbn [Orchestrator.while iteration Options.maxIterations set_verify].
    replace (0 <? default 2%Z (Options.maxIterations options))%Z with true
      by (symmetry; apply Z.ltb_lt; lia).
    match goal with
    | |- context [Orchestrator.body _ _ ?f w] =>
        destruct (body_defects_found gemini (set_verify options v) f w Hshot Hrep Hpatch)
          as (f' & w' & Hbody & Hlen & Hf & Hi & Ho)
    end.
    cbn [set_verify] in Hbody. rewrite Hbody.
    cbn [result Result.iterations length] in Hlen.
    eexists _, _. split; [reflexivity|].
    cbn [Result.success Result.iterations Result.previewPath Result.finalCode].
    set (p := join _ _).
    split; [reflexivity|]. split; [exact Hlen|].
    assert (Hp : forall x, files (writeFileSync p (currentCode f') x) !! p
                           = Some (currentCode f'))
      by (intros x; apply writeFileSync_effect).
    destruct (default false (Options.autoApply options)).
    + split; [|split].
      * change (inspections w' = inspections w + 1). lia.
      * change (operations w' = operations w + 1). lia.
      * exists p. split; [reflexivity|].
        destruct (decide (Options.codePath options = p)) as [Heq|Hne].
        -- rewrite Heq. apply Hp.
        -- cbn [writeFileSync files]. rewrite lookup_insert_ne by exact Hne.
           apply lookup_insert_eq.
    + split; [|split].
      * change (inspections w' = inspections w + 1). lia.
      * change (operations w' = operations w + 1). lia.
      * exists p. split; [reflexivity|]. apply Hp.
Qed.

End HealLoop.

Section Scripted.
Import JS SafeParse Orchestrator OrchestratorSpec.

Local Abbreviation run :=
  (runFlowState scripted BareName.extname BareName.dirname BareName.basename BareName.join).
Local Abbreviation heals :=
  (heals_in scripted BareName.extname BareName.dirname BareName.basename BareName.join).

(** C3 as stated fails at N = 2: the inspection service always reports
    defects and the patch service always succeeds, yet the run does not take
    two iterations; it records one and stops. *)
Lemma heal_loop_counterexample :
  (forall k, reports_defects (scripted TheInspector k) = true) /\
  (forall k, patches (scripted TheSurgeon k) = true) /\
  ~ heals (scripted_options 2) scripted_world 2 /\
  (exists r w', run (scripted_options 2) scripted_world = Some (Resolved r, w') /\
                Result.success r = true /\
                length (Result.iterations r) = 1 /\
                inspections w' = 1 /\ operations w' = 1).
Proof.
  assert (Hrun : exists r w',
            run (scripted_options 2) scripted_world = Some (Resolved r, w') /\
            Result.success r = true /\
            length (Result.iterations r) = 1 /\
            inspections w' = 1 /\ operations w' = 1).
  { eexists _, _. split; [vm_compute; reflexivity|]. repeat split. }
  split; [intros k; vm_compute; reflexivity|].
  split; [intros k; vm_compute; reflexivity|].
  split; [|exact Hrun].
  intros (r & w' & Hr & _ & Hlen & _).
  destruct Hrun as (r1 & w1 & Hr1 & _ & Hlen1 & _).
  rewrite Hr in Hr1. inversion Hr1; subst. lia.
Qed.

Lemma heal_loop_witness : heals (scripted_options 2) scripted_world 1.
Proof.
  apply (heal_loop scripted BareName.extname BareName.dirname BareName.basename
           BareName.join (scripted_options 2) 2 scripted_world).
  - lia.
  - reflexivity.
  - eexists. vm_compute. reflexivity.
  - eexists. vm_compute. reflexivity.
  - intros k. vm_compute. reflexivity.
  - intros k. vm_compute. reflexivity.
Defined.

Lemma verify_is_ignored_witness :
  heals (set_verify (scripted_options 3) (Some true)) scripted_world 1 /\
  heals (set_verify (scripted_options 3) (Some false)) scripted_world 1.
Proof.
  destruct (verify_is_ignored scripted BareName.extname BareName.dirname BareName.basename
              BareName.join (scripted_options 3) scripted_world) as (_ & _ & _ & _ & H).
  assert (Hall : forall v, heals (set_verify (scripted_options 3) v) scripted_world 1).
  { apply H.
    - eexists. vm_compute. reflexivity.
    - eexists. vm_compute. reflexivity.
    - vm_compute. discriminate.
    - vm_compute. reflexivity.
    - vm_compute. reflexivity. }
  split; apply Hall.
Defined.

End Scripted.

(* ================================================================== *)
(** * Further properties of the response normaliser *)

Section NormaliserFacts.
Import JS JS.Notations SafeParse SafeParseSpec NormaliserSpec.

Lemma map_indexed_length {A B} (f : A -> nat -> completion B) (xs : list A) :
  forall (k : nat) (ys : list B),
    map_indexed f k xs = Normal ys -> length ys = length xs.
Proof.
  induction xs as [|x xs IH]; intros k ys H; simpl in H.
  - inversion H. reflexivity.
  - destruct (f x k) as [y|]; simpl in H; [|discriminate].
    destruct (map_indexed f (S k) xs) as [ys'|] eqn:Hys; simpl in H; [|discriminate].
    inversion H. simpl. f_equal. eapply IH. exact Hys.
Qed.

Lemma map_indexed_total {A B} (f : A -> nat -> completion B) (xs : list A) :
  (forall x i, In x xs -> exists y, f x i = Normal y) ->
  forall k, exists ys, map_indexed f k xs = Normal ys.
Proof.
  induction xs as [|x xs IH]; intros H k; simpl; [eauto|].
  destruct (H x k (or_introl eq_refl)) as [y ->]. simpl.
  destruct (IH (fun x' i Hx => H x' i (or_intror Hx)) (S k)) as [ys ->].
  simpl. eauto.
Qed.

(** The callback throws on [null] and on nothing else. *)
Lemma normalize_null (d : jsval) (index : nat) :
  (exists nd, normalize d index = Normal nd) <-> is_null d = false.
Proof.
  destruct d; simpl; split; intros H; try reflexivity; try discriminate; eauto.
  destruct H as [nd H]. discriminate.
Qed.

Lemma validate_valid (parsed : jsval) (ds : list jsval) :
  top_level_valid parsed = true ->
  member parsed (u16 "visual_defects") = Some (JArray ds) ->
  forallb (fun d => negb (is_null d)) ds = true ->
  exists r, validate parsed = Normal r.
Proof.
  intros Hvalid Hds Hnn.
  unfold top_level_valid in Hvalid. rewrite Hds in Hvalid.
  destruct (member parsed (u16 "looks_good")) as [[|lg| | | |]|] eqn:Hlg;
    try discriminate.
  destruct (member parsed (u16 "needs_asset_generation")) as [[|nag| | | |]|] eqn:Hnag;
    try discriminate.
  assert (Hget : forall k, get parsed k = Normal (member parsed k)).
  { intros k. destruct parsed; try discriminate; reflexivity. }
  destruct (map_indexed_total normalize ds) with (k := 0) as [nds Hnds].
  { intros d i Hd. apply normalize_null.
    rewrite forallb_forall in Hnn. apply negb_true_iff, Hnn, Hd. }
  unfold validate. rewrite !Hget, Hlg, Hds, Hnag. simpl. rewrite Hnds. simpl. eauto.
Qed.

(** X1.  A response is accepted exactly when its cleaned text parses, the
    three required fields have their types, and no entry of
    [visual_defects] is [null]: a single [null] entry sends the whole report
    to the fallback. *)
Theorem inspector_success_iff (text : jsstring) :
  Inspector.success (parseInspectorResponse text) = true <->
  exists parsed ds,
    JSON.parse (clean text) = Normal parsed /\
    top_level_valid parsed = true /\
    member parsed (u16 "visual_defects") = Some (JArray ds) /\
    forallb (fun d => negb (is_null d)) ds = true.
Proof.
  split.
  - intros Hok.
    destruct (parseInspectorResponse_cases text)
      as [(parsed & r & Hp & Hv & Hr) | (e & Hr)]; rewrite Hr in Hok; simpl in Hok;
      [|discriminate].
    destruct (validate_Normal _ _ Hv) as (lg & ds & nag & nds & H1 & H2 & H3 & Hmap & _).
    exists parsed, ds. repeat split; auto.
    + unfold top_level_valid. rewrite H1, H2, H3. reflexivity.
    + apply forallb_forall. intros d Hd.
      apply list_elem_of_In, list_elem_of_lookup in Hd as [i Hi].
      destruct (map_indexed_lookup _ _ _ _ _ _ Hmap Hi) as (nd & _ & Hnd).
      apply negb_true_iff. apply (normalize_null d (0 + i)). eauto.
  - intros (parsed & ds & Hp & Hvalid & Hds & Hnn).
    destruct (validate_valid parsed ds Hvalid Hds Hnn) as [r Hr].
    unfold parseInspectorResponse, try_inspector. rewrite Hp. simpl. rewrite Hr.
    reflexivity.
Qed.

(** X2.  An accepted report keeps [looks_good] and [needs_asset_generation]
    as the response gave them and has one defect for each entry of
    [visual_defects], in order: the defect at index [i] is the normalised
    entry at index [i], and for an entry that is a bare string it has that
    string as its issue, the id [defect-(i+1)] and the default element and
    selector.  Nothing is dropped or added, and [looks_good] is not
    reconciled with the number of defects. *)
Theorem inspector_passes_through (text : jsstring) (parsed : jsval) (ds : list jsval)
    (Hparse : JSON.parse (clean text) = Normal parsed)
    (Hok : Inspector.success (parseInspectorResponse text) = true)
    (Hds : member parsed (u16 "visual_defects") = Some (JArray ds)) :
  let d := Inspector.data (parseInspectorResponse text) in
  member parsed (u16 "looks_good") = Some (looks_good d) /\
  member parsed (u16 "needs_asset_generation") = Some (needs_asset_generation d) /\
  length (visual_defects d) = length ds /\
  (forall i, is_Some (visual_defects d !! i) <-> is_Some (ds !! i)) /\
  (forall i entry, ds !! i = Some entry ->
     exists nd, visual_defects d !! i = Some nd /\ normalize entry i = Normal nd) /\
  (forall i s, ds !! i = Some (JString s) ->
     visual_defects d !! i
     = Some {| id := JString (u16 "defect-" ++ dec (i + 1));
               element := JString (u16 "unknown");
               element_text := JNull;
               selector_hint := JString (u16 "*");
               issue := JString s;
               expected := JNull;
               why := JNull |}).
Proof.
  destruct (parseInspectorResponse_cases text)
    as [(parsed' & r & Hp & Hv & Hr) | (e & Hr)]; rewrite Hr in *; simpl in *;
    [|discriminate].
  rewrite Hparse in Hp. inversion Hp; subst parsed'; clear Hp.
  destruct (validate_Normal _ _ Hv) as (lg & ds' & nag & nds & H1 & H2 & H3 & Hmap & ->).
  rewrite Hds in H2. inversion H2; subst ds'; clear H2.
  pose proof (map_indexed_length _ _ _ _ Hmap) as Hlen.
  cbn [looks_good visual_defects needs_asset_generation].
  split; [exact H1|]. split; [exact H3|]. split; [exact Hlen|].
  split; [|split].
  - intros i. split; intros H; apply lookup_lt_is_Some; apply lookup_lt_is_Some in H; lia.
  - intros i entry Hi.
    destruct (map_indexed_lookup _ _ _ _ _ _ Hmap Hi) as (nd & Hnd & Hn).
    exists nd. split; [exact Hnd|exact Hn].
  - intros i s Hi.
    destruct (map_indexed_lookup _ _ _ _ _ _ Hmap Hi) as (nd & Hnd & Hn).
    rewrite Hnd. cbn [normalize Nat.add] in Hn. injection Hn as <-. reflexivity.
Qed.

Lemma inspector_passes_through_witness :
  let text := dq "{'looks_good':true,'visual_defects':['Low contrast','Tiny button'],'needs_asset_generation':false}" in
  let d := Inspector.data (parseInspectorResponse text) in
  looks_good d = JBool true /\
  length (visual_defects d) = 2 /\
  (exists nd, visual_defects d !! 1 = Some nd /\ issue nd = JString (u16 "Tiny button")).
Proof.
  intros text d.
  destruct (inspector_passes_through text
              (JObject [(u16 "looks_good", JBool true);
                        (u16 "visual_defects",
                         JArray [JString (u16 "Low contrast"); JString (u16 "Tiny button")]);
                        (u16 "needs_asset_generation", JBool false)])
              [JString (u16 "Low contrast"); JString (u16 "Tiny button")])
    as (Hlg & _ & Hlen & _ & _ & Hstr).
  - vm_compute. reflexivity.
  - vm_compute. reflexivity.
  - reflexivity.
  - fold text d in Hlg, Hlen, Hstr. split; [|split; [exact Hlen|]].
    + inversion Hlg. reflexivity.
    + eexists. split; [apply (Hstr 1); reflexivity|reflexivity].
Defined.

Lemma u16_inj (a b : string) : u16 a = u16 b -> a = b.
Proof.
  unfold u16. intros H.
  rewrite <- (string_of_list_ascii_of_string a), <- (string_of_list_ascii_of_string b).
  f_equal. revert H.
  generalize (list_ascii_of_string a) (list_ascii_of_string b).
  induction l as [|x l IH]; intros [|y l'] H; simpl in H; try discriminate; auto.
  inversion H as [[Hxy Hl]]. f_equal; [|apply IH; exact Hl].
  unfold cu in Hxy.
  rewrite <- (ascii_N_embedding x), <- (ascii_N_embedding y), Hxy. reflexivity.
Qed.

Lemma dec_inj (n m : nat) : dec n = dec m -> n = m.
Proof.
  unfold dec. intros H. apply u16_inj in H.
  assert (Hu : Nat.to_uint n = Nat.to_uint m).
  { pose proof (NilEmpty.usu (Nat.to_uint n)) as Hn.
    pose proof (NilEmpty.usu (Nat.to_uint m)) as Hm.
    rewrite H in Hn. rewrite Hn in Hm. inversion Hm. reflexivity. }
  rewrite <- (DecimalNat.Unsigned.of_to n), <- (DecimalNat.Unsigned.of_to m), Hu.
  reflexivity.
Qed.

Lemma normalize_lacks_id (d : jsval) (index : nat) (nd : defect) :
  lacks_id d = true -> normalize d index = Normal nd -> id nd = defect_n index.
Proof.
  intros Hl Hn.
  destruct d; cbn [normalize get bind member lacks_id falsy_or_absent] in *;
    try discriminate; inversion Hn; try reflexivity.
  simpl. unfold or_else.
  destruct (find_last (u16 "id") members None) as [v|]; [|reflexivity].
  simpl in Hl. apply negb_true_iff in Hl. rewrite Hl. reflexivity.
Qed.

(** X3.  In an accepted report an entry that brings no id of its own (a bare
    string, or an object whose [id] is absent or falsy) gets the id
    [defect-<n>] with [n] its 1-based position, and two such entries at
    different positions get different ids. *)
Theorem synthesized_ids (text : jsstring) (parsed : jsval) (ds : list jsval)
    (Hparse : JSON.parse (clean text) = Normal parsed)
    (Hok : Inspector.success (parseInspectorResponse text) = true)
    (Hds : member parsed (u16 "visual_defects") = Some (JArray ds)) :
  let nds := visual_defects (Inspector.data (parseInspectorResponse text)) in
  (forall i d, ds !! i = Some d -> lacks_id d = true ->
     exists nd, nds !! i = Some nd /\
                id nd = JString (u16 "defect-" ++ dec (i + 1))) /\
  (forall i j di dj ni nj,
     ds !! i = Some di -> ds !! j = Some dj ->
     lacks_id di = true -> lacks_id dj = true ->
     nds !! i = Some ni -> nds !! j = Some nj ->
     i <> j -> id ni <> id nj).
Proof.
  destruct (parseInspectorResponse_cases text)
    as [(parsed' & r & Hp & Hv & Hr) | (e & Hr)]; rewrite Hr in *; simpl in *;
    [|discriminate].
  rewrite Hparse in Hp. inversion Hp; subst parsed'; clear Hp.
  destruct (validate_Normal _ _ Hv) as (lg & ds' & nag & nds & _ & H2 & _ & Hmap & ->).
  rewrite Hds in H2. inversion H2; subst ds'; clear H2. simpl.
  assert (Hid : forall i d, ds !! i = Some d -> lacks_id d = true ->
            exists nd, nds !! i = Some nd /\ id nd = defect_n i).
  { intros i d Hi Hl.
    destruct (map_indexed_lookup _ _ _ _ _ _ Hmap Hi) as (nd & Hnd & Hnorm).
    exists nd. split; [exact Hnd|]. apply (normalize_lacks_id d _ _ Hl Hnorm). }
  split.
  - intros i d Hi Hl. apply (Hid i d Hi Hl).
  - intros i j di dj ni nj Hi Hj Hli Hlj Hni Hnj Hij Heq.
    destruct (Hid i di Hi Hli) as (ni' & Hni' & Hidi).
    destruct (Hid j dj Hj Hlj) as (nj' & Hnj' & Hidj).
    rewrite Hni in Hni'. rewrite Hnj in Hnj'.
    inversion Hni'; inversion Hnj'; subst ni' nj'.
    rewrite Hidi, Hidj in Heq. unfold defect_n in Heq.
    inversion Heq as [Happ]. apply dec_inj in Happ. lia.
Qed.

Lemma synthesized_ids_witness :
  let text := dq "{'looks_good':false,'visual_defects':['Low contrast',{'issue':'Cramped'}],'needs_asset_generation':false}" in
  let nds := visual_defects (Inspector.data (parseInspectorResponse text)) in
  exists n0 n1, nds = [n0; n1] /\ id n0 <> id n1.
Proof.
  intros text nds.
  destruct (synthesized_ids text
              (JObject [(u16 "looks_good", JBool false);
                        (u16 "visual_defects",
                         JArray [JString (u16 "Low contrast");
                                 JObject [(u16 "issue", JString (u16 "Cramped"))]]);
                        (u16 "needs_asset_generation", JBool false)])
              [JString (u16 "Low contrast");
               JObject [(u16 "issue", JString (u16 "Cramped"))]])
    as (_ & Hdiff).
  - vm_compute. reflexivity.
  - vm_compute. reflexivity.
  - reflexivity.
  - fold text nds in Hdiff.
    assert (Hn : exists n0 n1, nds = [n0; n1]) by (eexists _, _; vm_compute; reflexivity).
    destruct Hn as (n0 & n1 & Hn). exists n0, n1. split; [exact Hn|].
    apply (Hdiff 0 1 (JString (u16 "Low contrast"))
                 (JObject [(u16 "issue", JString (u16 "Cramped"))]));
      try reflexivity; try (rewrite Hn; reflexivity). discriminate.
Defined.

Lemma fence_eq : fence = [96; 96; 96]%N.
Proof. reflexivity. Qed.

Lemma fence_json_eq : fence_json = [96; 96; 96; 106; 115; 111; 110]%N.
Proof. reflexivity. Qed.

Lemma ascii_lower_backquote (c : N) : N.eqb c 96 = false -> N.eqb 96 (ascii_lower c) = false.
Proof.
  intros H. unfold ascii_lower.
  destruct (N.leb 65 c && N.leb c 90)%bool eqn:Hr.
  - apply andb_true_iff in Hr as [H1 H2]. apply N.leb_le in H1, H2.
    apply N.eqb_neq. lia.
  - rewrite N.eqb_sym. exact H.
Qed.

(** Text without a backquote passes a fence-stripping [replace] unchanged. *)
Lemma strip_plain (ci : bool) (pat s rest : jsstring) :
  no_backquote s = true ->
  strip ci (96%N :: pat) (s ++ rest) 0 false = s ++ strip ci (96%N :: pat) rest 0 false.
Proof.
  induction s as [|c s IH]; intros H; [reflexivity|].
  simpl in H. apply andb_true_iff in H as [Hc Hs]. apply negb_true_iff in Hc.
  pose proof (ascii_lower_backquote c Hc) as Hl.
  rewrite N.eqb_sym in Hc.
  destruct ci; cbn [app strip andb starts_with starts_with_ci].
  - replace (ascii_lower 96%N) with 96%N by reflexivity. rewrite Hl. cbn [andb].
    rewrite (IH Hs). reflexivity.
  - rewrite Hc. cbn [andb]. rewrite (IH Hs). reflexivity.
Qed.

Lemma clean_plain (t : jsstring) : no_backquote t = true -> clean t = trim t.
Proof.
  intros H. unfold clean. rewrite fence_eq, fence_json_eq.
  rewrite <- (app_nil_r t).
  rewrite (strip_plain true _ t [] H). simpl strip. rewrite app_nil_r.
  rewrite <- (app_nil_r t) at 1.
  rewrite (strip_plain false _ t [] H). simpl strip. rewrite app_nil_r. reflexivity.
Qed.

Lemma trim_newline (c : N) (r : jsstring) :
  is_ws c = false -> trim ((c :: r) ++ [10%N]) = trim (c :: r).
Proof.
  intros H. unfold trim. cbn [app drop_ws]. rewrite H.
  change (c :: r ++ [10%N]) with ((c :: r) ++ [10%N]).
  rewrite rev_app_distr. reflexivity.
Qed.

Lemma strip_step (ci : bool) (pat : jsstring) (c : N) (r : jsstring) (in_ws : bool) :
  strip ci pat (c :: r) 0 in_ws
  = if in_ws && is_ws c then strip ci pat r 0 true
    else if (if ci then starts_with_ci pat (c :: r) else starts_with pat (c :: r))
         then strip ci pat r (length pat - 1) true
         else c :: strip ci pat r 0 false.
Proof. reflexivity. Qed.

Lemma starts_with_ci_plain (pat : jsstring) (c : N) (x : jsstring) :
  N.eqb c 96 = false -> starts_with_ci (96%N :: pat) (c :: x) = false.
Proof.
  intros Hc. pose proof (ascii_lower_backquote c Hc) as Hl.
  change (starts_with_ci (96%N :: pat) (c :: x))
    with (N.eqb (ascii_lower 96%N) (ascii_lower c) && starts_with_ci pat x).
  replace (ascii_lower 96%N) with 96%N by reflexivity.
  rewrite Hl. reflexivity.
Qed.

(** The opening fence and the line end after it go. *)
Lemma strip_json_prefix (x : jsstring) :
  strip true [96; 96; 96; 106; 115; 111; 110]%N
    ([96; 96; 96; 106; 115; 111; 110]%N ++ 10%N :: x) 0 false
  = strip true [96; 96; 96; 106; 115; 111; 110]%N x 0 true.
Proof. reflexivity. Qed.

Lemma clean_fenced (c : N) (r : jsstring) :
  is_ws c = false -> no_backquote (c :: r) = true ->
  clean (fenced (c :: r)) = trim (c :: r).
Proof.
  intros Hws Hnb. unfold clean, fenced. rewrite fence_eq, fence_json_eq.
  change (u16 "```json") with [96; 96; 96; 106; 115; 111; 110]%N.
  change (u16 "```") with [96; 96; 96]%N.
  pose proof Hnb as Hnb'. simpl in Hnb'. apply andb_true_iff in Hnb' as [Hc Hr].
  apply negb_true_iff in Hc.
  change ([96; 96; 96; 106; 115; 111; 110]%N ++ [10%N] ++ (c :: r)
          ++ [10%N] ++ [96; 96; 96]%N)
    with ([96; 96; 96; 106; 115; 111; 110]%N ++ 10%N :: c :: (r ++ [10; 96; 96; 96]%N)).
  rewrite strip_json_prefix, strip_step, Hws, andb_false_r.
  rewrite (starts_with_ci_plain _ c _ Hc).
  rewrite (strip_plain true _ r _ Hr).
  change (strip true [96; 96; 96; 106; 115; 111; 110]%N [10; 96; 96; 96]%N 0 false)
    with [10; 96; 96; 96]%N.
  change (c :: r ++ [10; 96; 96; 96]%N) with ((c :: r) ++ [10; 96; 96; 96]%N).
  rewrite (strip_plain false _ (c :: r) _ Hnb).
  change (strip false [96; 96; 96]%N [10; 96; 96; 96]%N 0 false) with [10%N].
  apply trim_newline. exact Hws.
Qed.

(** X4.  A response wrapped in a [```json] fence is read like the bare
    response: for a text without backquotes that starts with a character
    other than white space, the fenced text gives the same result. *)
Theorem fenced_response (c : N) (r : jsstring)
    (Hws : is_ws c = false)
    (Hplain : no_backquote (c :: r) = true) :
  parseInspectorResponse (fenced (c :: r)) = parseInspectorResponse (c :: r).
Proof.
  unfold parseInspectorResponse, try_inspector.
  rewrite (clean_fenced c r Hws Hplain), (clean_plain (c :: r) Hplain). reflexivity.
Qed.

Lemma fenced_response_witness :
  let t := dq "{'looks_good':true,'visual_defects':[],'needs_asset_generation':false}" in
  parseInspectorResponse (fenced t) = parseInspectorResponse t /\
  Inspector.success (parseInspectorResponse (fenced t)) = true.
Proof.
  intros t. split.
  - apply (fenced_response 123%N
             (dq "'looks_good':true,'visual_defects':[],'needs_asset_generation':false}"));
      reflexivity.
  - vm_compute. reflexivity.
Defined.

Lemma drop_ws_idem (s : jsstring) : drop_ws (drop_ws s) = drop_ws s.
Proof.
  induction s as [|c s IH]; [reflexivity|]. simpl.
  destruct (is_ws c) eqn:H; [exact IH|]. simpl. rewrite H. reflexivity.
Qed.

Lemma drop_ws_head (s : jsstring) (c : N) (r : jsstring) :
  drop_ws s = c :: r -> is_ws c = false.
Proof.
  induction s as [|x s IH]; simpl; [discriminate|].
  destruct (is_ws x) eqn:H; [exact IH|]. intros E. inversion E; subst. exact H.
Qed.

Lemma drop_ws_suffix (s : jsstring) : exists p, s = p ++ drop_ws s.
Proof.
  induction s as [|x s [p IH]]; [exists []; reflexivity|]. simpl.
  destruct (is_ws x); [|exists []; reflexivity].
  exists (x :: p). simpl. f_equal. exact IH.
Qed.

Lemma trim_trailing (s : jsstring) : drop_ws (rev (trim s)) = rev (trim s).
Proof. unfold trim. rewrite rev_involutive. apply drop_ws_idem. Qed.

Lemma trim_leading (s : jsstring) : drop_ws (trim s) = trim s.
Proof.
  unfold trim.
  destruct (drop_ws_suffix (rev (drop_ws s))) as [p Hp].
  destruct (rev (drop_ws (rev (drop_ws s)))) as [|c r] eqn:Hz; [reflexivity|].
  assert (Hy : drop_ws s = (c :: r) ++ rev p).
  { rewrite <- (rev_involutive (drop_ws s)), Hp, rev_app_distr, Hz. reflexivity. }
  simpl in Hy. cbn [drop_ws]. rewrite (drop_ws_head _ _ _ Hy). reflexivity.
Qed.

(** X5.  Code that [parseSurgeonResponse] accepts has at least 10
    characters and neither starts nor ends with white space. *)
Theorem surgeon_code_trimmed (text code : jsstring)
    (H : Surgeon.code (parseSurgeonResponse text) = Some code) :
  10 <= length code /\ drop_ws code = code /\ drop_ws (rev code) = rev code.
Proof.
  unfold parseSurgeonResponse, try_surgeon in H.
  match type of H with
  | context [length ?c <? 10] =>
      assert (Ht : exists x, c = trim x)
        by (destruct (code_block (trim text)); eauto);
      destruct (length c <? 10) eqn:Hlen; simpl in H; [discriminate|];
      inversion H; subst code; destruct Ht as [x Ht]
  end.
  apply Nat.ltb_ge in Hlen. split; [exact Hlen|].
  rewrite Ht. split; [apply trim_leading | apply trim_trailing].
Qed.

Lemma surgeon_code_trimmed_witness :
  10 <= length (u16 "const x = 1;") /\
  drop_ws (u16 "const x = 1;") = u16 "const x = 1;".
Proof.
  destruct (surgeon_code_trimmed
              (u16 "  ```js const x = 1;  ``` thanks") (u16 "const x = 1;"))
    as (H1 & H2 & _).
  - vm_compute. reflexivity.
  - split; assumption.
Defined.

Lemma no_backquote_drop_ws (s : jsstring) :
  no_backquote s = true -> no_backquote (drop_ws s) = true.
Proof.
  induction s as [|c s IH]; [auto|]. intros H. simpl.
  destruct (is_ws c); [|exact H].
  apply IH. simpl in H. apply andb_true_iff in H as [_ H]. exact H.
Qed.

Lemma no_backquote_rev (s : jsstring) :
  no_backquote s = true -> no_backquote (rev s) = true.
Proof.
  unfold no_backquote. rewrite !forallb_forall. intros H x Hx.
  apply H. apply in_rev. exact Hx.
Qed.

Lemma after_fence_plain (s : jsstring) : no_backquote s = true -> after_fence s = None.
Proof.
  induction s as [|c s IH]; [reflexivity|]. intros H.
  simpl in H. apply andb_true_iff in H as [Hc Hs]. apply negb_true_iff in Hc.
  cbn [after_fence]. rewrite fence_eq. cbn [starts_with].
  rewrite (N.eqb_sym 96 c), Hc. simpl. apply IH. exact Hs.
Qed.

(** X6.  A response without any backquote is taken as it is: trimmed, and
    accepted exactly when at least 10 characters are left. *)
Theorem surgeon_unfenced (text : jsstring) (H : no_backquote text = true) :
  parseSurgeonResponse text
  = if length (trim text) <? 10
    then {| Surgeon.success := false;
            Surgeon.error := Some (Msg (u16 "Response too short to be valid code"));
            Surgeon.code := None |}
    else {| Surgeon.success := true; Surgeon.error := None;
            Surgeon.code := Some (trim text) |}.
Proof.
  unfold parseSurgeonResponse, try_surgeon, code_block.
  rewrite after_fence_plain.
  - destruct (length (trim text) <? 10); reflexivity.
  - unfold trim. apply no_backquote_rev, no_backquote_drop_ws, no_backquote_rev,
      no_backquote_drop_ws, H.
Qed.

Lemma surgeon_unfenced_witness :
  Surgeon.code (parseSurgeonResponse (u16 "  export default App;  "))
  = Some (u16 "export default App;").
Proof.
  rewrite (surgeon_unfenced (u16 "  export default App;  ")); reflexivity.
Defined.

End NormaliserFacts.

(* ================================================================== *)
(** * Further properties of the usage ledger *)

Section LedgerInvariants.
Import JS UsageTracker LedgerOps.

Lemma apply_writable (o : op) (t : tracker) : writable (apply o t) = writable t.
Proof. destruct o; reflexivity. Qed.

Lemma run_writable (ops : list op) :
  forall t, writable (run ops t) = writable t.
Proof.
  induction ops as [|o ops IH]; intros t; [reflexivity|].
  unfold run in *. simpl. rewrite IH. apply apply_writable.
Qed.

Lemma apply_in_sync (o : op) (t : tracker) : in_sync t -> in_sync (apply o t).
Proof.
  unfold in_sync. destruct o; simpl; intros H; try exact H; try reflexivity.
  rewrite H. reflexivity.
Qed.

Lemma track_history_firstn (model endpoint : jsstring) (inputTokens outputTokens : option float)
    (isImage : option bool) (prompt : option jsstring) (timestamp : jsstring)
    (t : tracker) :
  let r := track model endpoint inputTokens outputTokens isImage prompt timestamp t in
  history (data (snd r))
  = firstn 100
      ({| Call.timestamp := timestamp; Call.model := model; Call.endpoint := endpoint;
          Call.inputTokens := default 0%float inputTokens;
          Call.outputTokens := default 0%float outputTokens;
          Call.isImage := default false isImage;
          Call.cost := Tracked.cost (fst r);
          Call.prompt := firstn 100 (default [] prompt) |} :: history (data t)).
Proof.
  intros r.
  match goal with
  | |- _ = firstn 100 ?l =>
      assert (H : history (data (snd r)) = if 100 <? length l then firstn 100 l else l)
        by reflexivity;
      rewrite H; destruct (100 <? length l) eqn:Hn; [reflexivity|];
      apply Nat.ltb_ge in Hn; symmetry; apply firstn_all2; exact Hn
  end.
Qed.

(** X9.  [track] puts the record of the call first in the history, with
    the prompt cut to 100 characters, keeps the earlier records in their
    order behind it and drops what would come after the 100th record. *)
Theorem track_history (model endpoint : jsstring) (inputTokens outputTokens : option float)
    (isImage : option bool) (prompt : option jsstring) (timestamp : jsstring)
    (t : tracker) :
  let r := track model endpoint inputTokens outputTokens isImage prompt timestamp t in
  let entry :=
    {| Call.timestamp := timestamp; Call.model := model; Call.endpoint := endpoint;
       Call.inputTokens := default 0%float inputTokens;
       Call.outputTokens := default 0%float outputTokens;
       Call.isImage := default false isImage;
       Call.cost := Tracked.cost (fst r);
       Call.prompt := firstn 100 (default [] prompt) |} in
  history (data (snd r)) = firstn 100 (entry :: history (data t)) /\
  length (history (data (snd r))) <= 100 /\
  length (history (data (snd r))) = Nat.min 100 (S (length (history (data t)))).
Proof.
  intros r entry.
  pose proof (track_history_firstn model endpoint inputTokens outputTokens isImage
                prompt timestamp t) as H.
  cbv zeta in H. fold r in H. fold entry in H.
  split; [exact H|]. rewrite H. split.
  - apply firstn_le_length.
  - rewrite length_firstn. reflexivity.
Qed.

Lemma track_history_length (o : op) (t : tracker) :
  length (history (data t)) <= 100 -> length (history (data (apply o t))) <= 100.
Proof.
  destruct o; intros H; try exact H.
  - unfold apply. rewrite track_history_firstn. apply firstn_le_length.
  - simpl. lia.
Qed.

(** X7.  From a reset on, whatever calls of [track], [trackAsset],
    [setBudget] and [resetSession] follow: the session's [budgetUsed] equals
    [totals.estimatedCost], and the history never holds more than 100
    records. *)
Theorem ledger_invariants (ops : list op) (now : jsstring) (t : tracker) :
  let t' := run ops (resetSession now t) in
  in_sync t' /\ length (history (data t')) <= 100.
Proof.
  assert (H : forall ops t0,
            in_sync t0 /\ length (history (data t0)) <= 100 ->
            in_sync (run ops t0) /\ length (history (data (run ops t0))) <= 100).
  { clear. induction ops as [|o ops IH]; intros t0 [H1 H2]; [auto|].
    unfold run in *. simpl. apply IH. split.
    - apply apply_in_sync, H1.
    - apply track_history_length, H2. }
  apply H. split; [reflexivity | simpl; lia].
Qed.



(** X10.  [track] counts the call under its model and under its endpoint,
    starting an entry at zero where there was none, and leaves the entries of
    every other model and endpoint as they were. *)
Theorem track_by_key (model endpoint : jsstring) (inputTokens outputTokens : option float)
    (isImage : option bool) (prompt : option jsstring) (timestamp : jsstring)
    (t : tracker) :
  let r := track model endpoint inputTokens outputTokens isImage prompt timestamp t in
  let m := default empty_model_usage (byModel (data t) !! model) in
  let e := default empty_endpoint_usage (byEndpoint (data t) !! endpoint) in
  (exists m', byModel (data (snd r)) !! model = Some m' /\
              ModelUsage.calls m' = (ModelUsage.calls m + 1)%float /\
              ModelUsage.cost m' = (ModelUsage.cost m + Tracked.cost (fst r))%float) /\
  (exists e', byEndpoint (data (snd r)) !! endpoint = Some e' /\
              EndpointUsage.calls e' = (EndpointUsage.calls e + 1)%float /\
              EndpointUsage.cost e' = (EndpointUsage.cost e + Tracked.cost (fst r))%float) /\
  (forall other, other <> model ->
     byModel (data (snd r)) !! other = byModel (data t) !! other) /\
  (forall other, other <> endpoint ->
     byEndpoint (data (snd r)) !! other = byEndpoint (data t) !! other).
Proof.
  intros r m e. subst r. unfold track.
  cbn [snd fst data save set_data byModel byEndpoint Tracked.cost].
  split; [|split; [|split]].
  - eexists. split; [apply lookup_insert_eq|]. split; reflexivity.
  - eexists. split; [apply lookup_insert_eq|]. split; reflexivity.
  - intros other Hne. apply lookup_insert_ne. congruence.
  - intros other Hne. apply lookup_insert_ne. congruence.
Qed.

Lemma str_eqb_neq (a b : jsstring) : a <> b -> str_eqb a b = false.
Proof. intros H. unfold str_eqb. destruct (decide (a = b)); [contradiction|reflexivity]. Qed.

(** X11.  Only [gemini-3-pro-preview] has token prices of its own: a call
    that is not an image call on any other model, known or not, costs 0.0001
    per 1K input tokens and 0.0002 per 1K output tokens. *)
Theorem token_cost_default_rate (model : jsstring) (inputTokens outputTokens : float)
    (H : model <> u16 "gemini-3-pro-preview") :
  call_cost model inputTokens outputTokens false
  = (inputTokens / 1000 * 0.0001 + outputTokens / 1000 * 0.0002)%float.
Proof.
  unfold call_cost, PRICING. rewrite (str_eqb_neq _ _ H).
  destruct (str_eqb model (u16 "gemini-2.0-flash-preview-image-generation"));
    [reflexivity|].
  destruct (str_eqb model (u16 "gemini-2.0-flash")); reflexivity.
Qed.

Lemma token_cost_default_rate_witness :
  call_cost (u16 "gemini-2.0-flash-preview-image-generation") 2000 1000 false
  = 0.0004%float.
Proof.
  rewrite (token_cost_default_rate (u16 "gemini-2.0-flash-preview-image-generation")).
  - reflexivity.
  - discriminate.
Defined.

(** X12.  [estimateTokens] is 0 for a missing or empty text and otherwise the
    least number of 4-character tokens that cover the text. *)
Theorem estimateTokens_bounds (s : jsstring) :
  estimateTokens None = 0 /\
  estimateTokens (Some []) = 0 /\
  length s <= 4 * estimateTokens (Some s) /\
  4 * estimateTokens (Some s) < length s + 4.
Proof.
  split; [reflexivity|]. split; [reflexivity|].
  destruct s as [|c s]; [simpl; lia|].
  unfold estimateTokens.
  pose proof (Nat.div_mod_eq (length (c :: s) + 3) 4) as H1.
  pose proof (Nat.mod_upper_bound (length (c :: s) + 3) 4) as H2.
  lia.
Qed.

End LedgerInvariants.

(* ================================================================== *)
(** * Properties of the server's routes *)

Section ServerFacts.
Import JS UsageTracker Server ServerSpec.




(** X14.  [/api/usage/budget] answers 200 exactly when [amount] is a number
    that is not [<= 0]; any other answer leaves
    the tracker as it was.  An accepted amount becomes the session's budget,
    nothing else of the ledger changes, and from then on the remaining budget
    is that amount less what the session has used. *)
Theorem budget_route (body : option amount_field) (t : tracker) :
  let '((st, ans), t') := usage_budget body t in
  (st = 200%Z <-> exists a, body = Some (AmountNumber a) /\ PrimFloat.leb a 0 = false)
  /\ (st <> 200%Z -> t' = t)
  /\ (forall a, body = Some (AmountNumber a) -> PrimFloat.leb a 0 = false ->
        ans = BudgetSet a
        /\ Session.budget (session (data t')) = a
        /\ Session.budgetUsed (session (data t')) = Session.budgetUsed (session (data t))
        /\ Session.startTime (session (data t')) = Session.startTime (session (data t))
        /\ totals (data t') = totals (data t)
        /\ byModel (data t') = byModel (data t)
        /\ byEndpoint (data t') = byEndpoint (data t)
        /\ history (data t') = history (data t)
        /\ assets (data t') = assets (data t)
        /\ forall c, Budget.remaining (checkBudget c t')
                     = (a - Session.budgetUsed (session (data t)))%float).
Proof.
  unfold usage_budget.
  destruct body as [[|a|]|].
  - split; [split; [discriminate|intros (a & H & _); discriminate]|].
    split; [reflexivity|intros a H; discriminate].
  - destruct (PrimFloat.leb a 0) eqn:Ha.
    + split; [split; [discriminate|intros (a' & H & H'); congruence]|].
      split; [reflexivity|intros a' H H'; congruence].
    + split; [split; [eauto|reflexivity]|].
      split; [intros H; contradiction H; reflexivity|].
      intros a' H _. injection H as <-. repeat split; reflexivity.
  - split; [split; [discriminate|intros (a & H & _); discriminate]|].
    split; [reflexivity|intros a H; discriminate].
  - split; [split; [discriminate|intros (a & H & _); discriminate]|].
    split; [reflexivity|intros a H; discriminate].
Qed.

Lemma str_eqb_true (a b : jsstring) : str_eqb a b = true <-> a = b.
Proof. unfold str_eqb. destruct (decide (a = b)); split; congruence. Qed.

Lemma split_nonempty (sep : N) (s : jsstring) : split sep s <> [].
Proof.
  destruct s as [|c r]; [discriminate|]. cbn [split].
  destruct (N.eqb c sep); [discriminate|]. destruct (split sep r); discriminate.
Qed.

Lemma split_trailing (sep : N) (s : jsstring) : split sep (s ++ [sep]) = split sep s ++ [[]].
Proof.
  induction s as [|c r IH].
  - cbn [app split]. rewrite N.eqb_refl. reflexivity.
  - cbn [app split]. rewrite IH. destruct (N.eqb c sep); [reflexivity|].
    pose proof (split_nonempty sep r) as Hne.
    destruct (split sep r) as [|l ls]; [contradiction|reflexivity].
Qed.

Lemma diff_from_In (ol fl : list jsstring) (count i : nat) (c : Change.t) :
  In c (diff_from count i ol fl)
  <-> exists k, i <= k < i + count /\ nth k ol [] <> nth k fl [] /\ c = change_at ol fl k.
Proof.
  revert i. induction count as [|n IH]; intros i.
  - cbn. split; [tauto|intros (k & H & _); lia].
  - cbn [diff_from]. rewrite in_app_iff, IH. split.
    + intros [H|(k & Hk & Hd & ->)].
      * destruct (str_eqb _ _) eqn:E; [destruct H|].
        destruct H as [<-|[]]. exists i. split; [lia|]. split; [|reflexivity].
        intros Heq. apply str_eqb_true in Heq. congruence.
      * exists k. split; [lia|]. auto.
    + intros (k & Hk & Hd & ->).
      destruct (decide (k = i)) as [->|Hne].
      * left. destruct (str_eqb _ _) eqn:E; [apply str_eqb_true in E; contradiction|].
        left. reflexivity.
      * right. exists k. split; [lia|]. auto.
Qed.

Lemma diff_from_sorted (ol fl : list jsstring) (count i : nat) :
  StronglySorted lt (map Change.line (diff_from count i ol fl)).
Proof.
  revert i. induction count as [|n IH]; intros i; [constructor|].
  cbn [diff_from]. destruct (str_eqb _ _); [apply IH|].
  cbn [app map Change.line]. constructor; [apply IH|].
  apply List.Forall_forall. intros l Hl. apply in_map_iff in Hl. destruct Hl as (c & <- & Hc).
  apply diff_from_In in Hc. destruct Hc as (k & Hk & _ & ->). cbn. lia.
Qed.

Lemma diff_from_length (ol fl : list jsstring) (count i : nat) :
  length (diff_from count i ol fl) <= count.
Proof.
  revert i. induction count as [|n IH]; intros i; [reflexivity|].
  cbn [diff_from]. rewrite length_app. specialize (IH (S i)).
  destruct (str_eqb _ _); cbn [length]; lia.
Qed.

(** X15.  The diff of [/api/diff] is positional.  It has an entry for line
    [i + 1] exactly when the lines at index [i] of the two texts differ, a
    missing line counting as the empty line; every entry carries the two lines
    of its line number, which differ; its type is [added] exactly when the
    original line is empty and [removed] exactly when only the fixed line is;
    line numbers increase strictly, from 1 to at most the larger line
    count. *)
Theorem line_diff_entries (original fixed : jsstring) :
  let ol := split 10 original in
  let fl := split 10 fixed in
  let d := line_diff original fixed in
  (forall i, (exists c, In c d /\ Change.line c = i + 1) <-> nth i ol [] <> nth i fl [])
  /\ (forall c, In c d ->
        1 <= Change.line c <= Nat.max (length ol) (length fl)
        /\ Change.original c = nth (Change.line c - 1) ol []
        /\ Change.fixed c = nth (Change.line c - 1) fl []
        /\ Change.original c <> Change.fixed c
        /\ (Change.type c = Added <-> Change.original c = [])
        /\ (Change.type c = Removed <-> Change.original c <> [] /\ Change.fixed c = []))
  /\ StronglySorted lt (map Change.line d)
  /\ length d <= Nat.max (length ol) (length fl).
Proof.
  intros ol fl d. subst d. unfold line_diff. fold ol fl.
  split; [|split; [|split; [apply diff_from_sorted|apply diff_from_length]]].
  - intros i. split.
    + intros (c & Hc & Hl). apply diff_from_In in Hc. destruct Hc as (k & _ & Hd & ->).
      cbn in Hl. replace i with k by lia. exact Hd.
    + intros Hd. exists (change_at ol fl i). split; [|reflexivity].
      apply diff_from_In. exists i. split; [|auto].
      destruct (Nat.lt_ge_cases i (Nat.max (length ol) (length fl))) as [Hlt|Hge]; [lia|].
      rewrite !nth_overflow in Hd by lia. contradiction.
  - intros c Hc. apply diff_from_In in Hc. destruct Hc as (k & Hk & Hd & ->).
    unfold change_at. cbn [Change.line Change.original Change.fixed Change.type].
    replace (k + 1 - 1) with k by lia.
    split; [lia|]. split; [reflexivity|]. split; [reflexivity|]. split; [exact Hd|].
    destruct (nth k ol []) as [|a x], (nth k fl []) as [|b y];
      (split; split; try tauto; try discriminate; try (intros [? ?]; congruence);
       try (intros; split; congruence)).
Qed.

Lemma nth_split_trailing (s : jsstring) (n i : nat) :
  nth i (split 10 (s ++ repeat 10%N n)) [] = nth i (split 10 s) [].
Proof.
  revert s. induction n as [|n IH]; intros s; [cbn [repeat]; rewrite app_nil_r; reflexivity|].
  replace (s ++ repeat 10%N (S n)) with ((s ++ [10%N]) ++ repeat 10%N n)
    by (rewrite <- app_assoc; reflexivity).
  rewrite IH, split_trailing.
  destruct (Nat.lt_ge_cases i (length (split 10 s))) as [Hlt|Hge].
  - rewrite app_nth1 by exact Hlt. reflexivity.
  - rewrite app_nth2 by exact Hge. rewrite (nth_overflow (split 10 s)) by exact Hge.
    destruct (i - length (split 10 s)) as [|[|m]]; reflexivity.
Qed.

Lemma diff_from_nil (ol fl : list jsstring) (count i : nat) :
  (forall k, nth k ol [] = nth k fl []) -> diff_from count i ol fl = [].
Proof.
  intros H. revert i. induction count as [|n IH]; intros i; [reflexivity|].
  cbn [diff_from]. rewrite IH, (H i).
  destruct (str_eqb _ _) eqn:E; [reflexivity|].
  assert (str_eqb (nth i fl []) (nth i fl []) = true) by (apply str_eqb_true; reflexivity).
  congruence.
Qed.

(** X16.  Two texts that differ only in the number of line feeds at their
    end have no difference for [/api/diff]: it answers 200 with no change. *)
Theorem diff_ignores_trailing_newlines (original : jsstring) (n m : nat)
    (H : original <> []) :
  diff (Some {| DiffBody.original := Some (original ++ repeat 10%N n);
                DiffBody.fixed := Some (original ++ repeat 10%N m) |})
  = (200%Z, DiffResult 0 []).
Proof.
  destruct original as [|c r]; [contradiction|].
  unfold diff. cbn [DiffBody.original DiffBody.fixed app].
  change (c :: r ++ repeat 10%N n) with ((c :: r) ++ repeat 10%N n).
  change (c :: r ++ repeat 10%N m) with ((c :: r) ++ repeat 10%N m).
  unfold line_diff. rewrite diff_from_nil; [reflexivity|].
  intros k. rewrite !nth_split_trailing. reflexivity.
Qed.

Lemma diff_ignores_trailing_newlines_witness :
  diff (Some {| DiffBody.original := Some (u16 "a" ++ repeat 10%N 0);
                DiffBody.fixed := Some (u16 "a" ++ repeat 10%N 2) |})
  = (200%Z, DiffResult 0 []).
Proof. apply (diff_ignores_trailing_newlines (u16 "a") 0 2). discriminate. Defined.

(** X17.  [/api/chat] never answers with a chat response.  Its answer is 400
    exactly when the message is missing or empty, and 500 in every other
    case: also when the model has replied with a text, because the route then
    calls [trackRequest] or [getUsage], which the tracker does not have; the
    message has been sent to the model by then. *)
Theorem chat_never_succeeds (chatModel : nat -> jsstring -> chat_reply)
    (body : option ChatBody.t) (sent : list jsstring) :
  let '((st, ans), sent') := chat chatModel body sent in
  (st = 400%Z \/ st = 500%Z)
  /\ (st = 400%Z <-> exists b, body = Some b /\ str_truthy (ChatBody.message b) = false)
  /\ (forall response, ans <> ChatResponse response)
  /\ (forall b message text usageMetadata,
        body = Some b -> ChatBody.message b = Some message -> message <> [] ->
        chatHistory (default [] (ChatBody.history b)) = Normal tt ->
        chatModel (length sent) message = ChatText text usageMetadata ->
        st = 500%Z /\ ans = ChatError EngineTypeError /\ sent' = message :: sent).
Proof.
  unfold chat.
  destruct body as [b|].
  2:{ split; [auto|]. split; [split; [discriminate|intros (b & H & _); discriminate]|].
      split; [discriminate|]. intros b ? ? ? H; discriminate. }
  destruct (ChatBody.message b) as [[|c message]|] eqn:Em.
  1,3: (split; [auto|]; split; [split; [intros _; exists b; rewrite Em; auto|reflexivity]|];
        split; [discriminate|]; intros b' m' ? ? H H1 H2; injection H as <-;
        rewrite Em in H1; try discriminate; injection H1 as <-; contradiction).
  assert (Hno : forall b', Some b = Some b' -> str_truthy (ChatBody.message b') = false -> False).
  { intros b' H H'. injection H as <-. rewrite Em in H'. discriminate. }
  destruct (chatHistory _) as [u|e] eqn:Eh.
  2:{ split; [auto|]. split; [split; [discriminate|intros (b' & H & H'); destruct (Hno b' H H')]|].
      split; [discriminate|]. intros b' m' ? ? H _ _ Hh. injection H as <-. congruence. }
  destruct (chatModel _ _) as [e|text um] eqn:Ec.
  - split; [auto|]. split; [split; [discriminate|intros (b' & H & H'); destruct (Hno b' H H')]|].
    split; [discriminate|]. intros b' m' ? ? H H1 _ _ Hc. injection H as <-.
    rewrite Em in H1. injection H1 as <-. congruence.
  - replace (tracker_has (u16 "trackRequest")) with false by reflexivity.
    replace (tracker_has (u16 "getUsage")) with false by reflexivity.
    cbn [negb andb]. destruct um; cbn [andb].
    all: split; [auto|]; split;
      [split; [discriminate|intros (b' & H & H'); destruct (Hno b' H H')]|];
      split; [discriminate|]; intros b' m' ? ? H H1 _ _ _; injection H as <-;
      rewrite Em in H1; injection H1 as <-; auto.
Qed.

Lemma safe_char_fixed (c : N) :
  is_safe_char (if is_safe_char c then c else 95%N) = is_safe_char c.
Proof. destruct (is_safe_char c) eqn:E; [exact E|reflexivity]. Qed.


End ServerFacts.

(* ================================================================== *)
(** * Further properties of the pipeline *)

Section PipelineFacts.
Import JS JS.Notations SafeParse Orchestrator OrchestratorSpec.

Variable gemini : agent -> nat -> reply.
Variables (extname dirname : jsstring -> jsstring).
Variables (basename join : jsstring -> jsstring -> jsstring).

Lemma surgeon_accepts (t : jsstring) :
  Surgeon.success (parseSurgeonResponse t) = true ->
  exists c, parseSurgeonResponse t
            = {| Surgeon.success := true; Surgeon.error := None; Surgeon.code := Some c |}
            /\ 10 <= length c.
Proof.
  unfold parseSurgeonResponse, try_surgeon.
  match goal with
  | |- context [length ?c <? 10] =>
      destruct (length c <? 10) eqn:Hlen; cbn; [discriminate|];
      intros _; exists c; split; [reflexivity|apply Nat.ltb_ge, Hlen]
  end.
Qed.


Lemma model_calls_record (e : event) (w : world) :
  model_calls (record e w) = if is_call_model e then S (model_calls w) else model_calls w.
Proof. unfold model_calls, record. cbn [events List.filter]. destruct (is_call_model e); reflexivity. Qed.

Lemma operations_record (e : event) (w : world) :
  operations (record e w) = if is_call_operate e then S (operations w) else operations w.
Proof. unfold operations, record. cbn [events List.filter]. destruct (is_call_operate e); reflexivity. Qed.

(** X19.  [runFlowStateAPI] never throws and never writes a file.  When the
    inspector's report is accepted and looks good, it returns the code it was
    given after one model call, without calling the surgeon.  When the
    inspector reports defects and the surgeon's reply is accepted, the result
    is a fix.  A fix carries at least one defect and a fixed code of at least
    10 characters, after exactly two model calls; a failure names the step
    [inspect], reached after one model call and before any patch, or the step
    [surgery]. *)
Theorem api_pipeline (code : jsstring) (w : world) :
  let '(c, w') := runFlowStateAPI gemini code w in
  files w' = files w
  /\ (exists res, c = Normal res)
  /\ (forall t, gemini TheInspector (model_calls w) = Text t ->
        Inspector.success (parseInspectorResponse t) = true ->
        truthy (looks_good (Inspector.data (parseInspectorResponse t))) = true ->
        c = Normal (ApiLooksGood code)
        /\ model_calls w' = S (model_calls w) /\ operations w' = operations w)
  /\ (reports_defects (gemini TheInspector (model_calls w)) = true ->
      patches (gemini TheSurgeon (S (model_calls w))) = true ->
      exists defects fixedCode needsAsset assetPrompt,
        c = Normal (ApiFixed defects fixedCode needsAsset assetPrompt))
  /\ (forall defects fixedCode needsAsset assetPrompt,
        c = Normal (ApiFixed defects fixedCode needsAsset assetPrompt) ->
        defects <> []
        /\ (exists fixed, fixedCode = Some fixed /\ 10 <= length fixed)
        /\ model_calls w' = S (S (model_calls w)) /\ operations w' = S (operations w))
  /\ (forall c0, c = Normal (ApiLooksGood c0) ->
        c0 = code /\ model_calls w' = S (model_calls w) /\ operations w' = operations w)
  /\ (forall e step, c = Normal (ApiFailed e step) ->
        (step = u16 "inspect" /\ model_calls w' = S (model_calls w)
         /\ operations w' = operations w)
        \/ (step = u16 "surgery" /\ operations w' = S (operations w))).
Proof.
  unfold runFlowStateAPI, inspectBase64, generateContent.
  destruct (gemini TheInspector (model_calls w)) as [t|e] eqn:Ei.
  2:{ cbn [Inspection.success negb]. rewrite model_calls_record. cbn [is_call_model].
      split; [reflexivity|]. split; [eauto|].
      split; [intros t H; discriminate|]. split; [discriminate|].
      split; [intros ? ? ? ? H; discriminate|]. split; [intros ? H; discriminate|].
      intros e0 st H. injection H as _ <-. left. auto. }
  cbn [Inspection.success Inspection.data Inspection.error].
  destruct (Inspector.success (parseInspectorResponse t)) eqn:Es; cbn [negb].
  2:{ rewrite model_calls_record. cbn [is_call_model].
      split; [reflexivity|]. split; [eauto|].
      split; [intros t' H H'; injection H as <-; congruence|].
      split; [cbn [reports_defects]; rewrite Es; discriminate|].
      split; [intros ? ? ? ? H; discriminate|]. split; [intros ? H; discriminate|].
      intros e0 st H. injection H as _ <-. left. auto. }
  destruct (truthy (looks_good (Inspector.data (parseInspectorResponse t)))) eqn:Elg.
  { rewrite model_calls_record. cbn [is_call_model].
    split; [reflexivity|]. split; [eauto|].
    split; [intros t' H _ _; auto|].
    split; [cbn [reports_defects]; rewrite Es, Elg; discriminate|].
    split; [intros ? ? ? ? H; discriminate|].
    split; [intros c0 H; injection H as <-; auto|].
    intros e0 st H. discriminate. }
  unfold operateOnCode, generateContent.
  destruct (visual_defects (Inspector.data (parseInspectorResponse t))) as [|d0 ds] eqn:Ed.
  { cbn [Surgeon.success negb Surgeon.error].
    rewrite operations_record, model_calls_record. cbn [is_call_model is_call_operate].
    rewrite model_calls_record, operations_record. cbn [is_call_model is_call_operate].
    split; [reflexivity|]. split; [eauto|].
    split; [intros t' H _ H'; injection H as <-; congruence|].
    split; [cbn [reports_defects]; rewrite Es, Elg, Ed; discriminate|].
    split; [intros ? ? ? ? H; discriminate|]. split; [intros ? H; discriminate|].
    intros e0 st H. injection H as _ <-. right. auto. }
  rewrite !model_calls_record. cbn [is_call_model].
  destruct (gemini TheSurgeon (S (model_calls w))) as [t2|e2] eqn:E2.
  2:{ cbn [Surgeon.success negb Surgeon.error].
      rewrite !model_calls_record, !operations_record. cbn [is_call_model is_call_operate].
      split; [reflexivity|]. split; [eauto|].
      split; [intros t' H _ H'; injection H as <-; congruence|].
      split; [intros _ H; discriminate|].
      split; [intros ? ? ? ? H; discriminate|]. split; [intros ? H; discriminate|].
      intros e0 st H. injection H as _ <-. right. auto. }
  destruct (Surgeon.success (parseSurgeonResponse t2)) eqn:Ep; cbn [negb].
  - destruct (surgeon_accepts t2 Ep) as (fixed & -> & Hlen).
    cbn [Surgeon.code].
    rewrite !model_calls_record, !operations_record. cbn [is_call_model is_call_operate].
    split; [reflexivity|]. split; [eauto|].
    split; [intros t' H _ H'; injection H as <-; congruence|].
    split; [intros _ _; eauto|].
    split; [|split; [intros ? H; discriminate|intros ? ? H; discriminate]].
    intros ? ? ? ? H. injection H as <- <- _ _.
    split; [discriminate|]. split; [eauto|]. auto.
  - rewrite !model_calls_record, !operations_record. cbn [is_call_model is_call_operate].
    split; [reflexivity|]. split; [eauto|].
    split; [intros t' H _ H'; injection H as <-; congruence|].
    split; [cbn [patches]; intros _ H; congruence|].
    split; [intros ? ? ? ? H; discriminate|]. split; [intros ? H; discriminate|].
    intros e0 st H. injection H as _ <-. right. auto.
Qed.


Local Abbreviation runFlowState := (runFlowState gemini extname dirname basename join).






Lemma while_first_pass (options : Options.t) (f : frame) (w : world) :
  (iteration f < default 2%Z (Options.maxIterations options))%Z ->
  iteration f = 0%Z ->
  forall r w', body gemini options f w = (Return r, w') ->
  while gemini options (Z.to_nat (default 2%Z (Options.maxIterations options))) f w
  = Some (Returned r, w').
Proof.
  intros Hlt H0 r w' Hb.
  destruct (Z.to_nat _) as [|fuel] eqn:Hfuel; [lia|].
  cbn [while]. apply Z.ltb_lt in Hlt. rewrite Hlt, Hb. reflexivity.
Qed.

(** X22.  When the first inspection is accepted and looks good, the run is a
    success that returns the code as it was read, with the summary for no
    defects and one iteration on record, after one inspection and one model
    call: the surgeon is not called and no file is written. *)
Theorem first_pass_looks_good (options : Options.t) (w : world) (code t : jsstring)
    (Hcode : files w !! Options.codePath options = Some code)
    (Hshot : is_Some (files w !! Options.screenshotPath options))
    (HN : (1 <= default 2%Z (Options.maxIterations options))%Z)
    (Hreply : gemini TheInspector (model_calls w) = Text t)
    (Hok : Inspector.success (parseInspectorResponse t) = true)
    (Hgood : truthy (looks_good (Inspector.data (parseInspectorResponse t))) = true) :
  exists (r : Result.t) (w' : world),
    runFlowState options w = Some (Resolved r, w') /\
    Result.success r = true /\
    Result.finalCode r = Some code /\
    Result.previewPath r = None /\
    Result.summary r = NoDefects /\
    Result.iterations r
    = [{| Iter.iteration := 1;
          Iter.inspection := InspectionData (Inspector.data (parseInspectorResponse t));
          Iter.surgery := SurgeryNull; Iter.verified := false |}] /\
    files w' = files w /\
    inspections w' = S (inspections w) /\
    model_calls w' = S (model_calls w) /\
    operations w' = operations w.
Proof.
  destruct Hshot as [img Himg].
  unfold Orchestrator.runFlowState. rewrite Hcode.
  match goal with
  | |- context [Orchestrator.while _ _ _ ?f w] => set (start := f)
  end.
  assert (Hb : exists r w', body gemini options start w = (Return r, w') /\
            Result.success r = true /\ Result.finalCode r = Some code /\
            Result.previewPath r = None /\ Result.summary r = NoDefects /\
            Result.iterations r
            = [{| Iter.iteration := 1;
                  Iter.inspection := InspectionData (Inspector.data (parseInspectorResponse t));
                  Iter.surgery := SurgeryNull; Iter.verified := false |}] /\
            files w' = files w /\ inspections w' = S (inspections w) /\
            model_calls w' = S (model_calls w) /\ operations w' = operations w).
  { unfold body, inspect, generateContent.
    change (files (record (CallInspect (Options.screenshotPath options)) w)) with (files w).
    rewrite Himg.
    change (model_calls (record (CallInspect (Options.screenshotPath options)) w))
      with (model_calls w).
    rewrite Hreply. cbn [Inspection.success Inspection.data].
    rewrite Hok, Hgood. cbn [negb].
    eexists _, _. split; [reflexivity|].
    cbn [Result.success Result.finalCode Result.previewPath Result.summary Result.iterations
         start result currentCode iteration].
    repeat split. }
  destruct Hb as (r & w' & Hb & Hrest).
  rewrite (while_first_pass options start w) with (r := r) (w' := w');
    [|cbn [start iteration]; lia|reflexivity|exact Hb].
  exists r, w'. split; [reflexivity|exact Hrest].
Qed.

(** X23.  When the first inspection fails (the screenshot does not exist,
    the model call fails, or the reply is not accepted), the run resolves
    with [success = false], no final code, no preview, the inspection's
    error in the summary and in the one iteration on record; the surgeon is
    not called and no file is written.  For a missing screenshot the error
    names the file and the model is not called at all. *)
Theorem inspection_failure (options : Options.t) (w : world) (code : jsstring)
    (Hcode : files w !! Options.codePath options = Some code)
    (HN : (1 <= default 2%Z (Options.maxIterations options))%Z)
    (Hfail : files w !! Options.screenshotPath options = None
             \/ (exists e, gemini TheInspector (model_calls w) = Fails e)
             \/ (exists t, gemini TheInspector (model_calls w) = Text t
                           /\ Inspector.success (parseInspectorResponse t) = false)) :
  exists (r : Result.t) (w' : world) (error : option message),
    runFlowState options w = Some (Resolved r, w') /\
    Result.success r = false /\
    Result.finalCode r = None /\
    Result.previewPath r = None /\
    Result.summary r = InspectionFailed error /\
    Result.iterations r
    = [{| Iter.iteration := 1; Iter.inspection := InspectionError error;
          Iter.surgery := SurgeryNull; Iter.verified := false |}] /\
    files w' = files w /\
    inspections w' = S (inspections w) /\
    operations w' = operations w /\
    (files w !! Options.screenshotPath options = None ->
       error = Some (Msg (u16 "File not found: " ++ Options.screenshotPath options))
       /\ model_calls w' = model_calls w) /\
    (is_Some (files w !! Options.screenshotPath options) ->
       model_calls w' = S (model_calls w)
       /\ (forall e, gemini TheInspector (model_calls w) = Fails e -> error = Some e)
       /\ (forall t, gemini TheInspector (model_calls w) = Text t ->
             error = Inspector.error (parseInspectorResponse t))).
Proof.
  unfold Orchestrator.runFlowState. rewrite Hcode.
  match goal with
  | |- context [Orchestrator.while _ _ _ ?f w] => set (start := f)
  end.
  assert (Hb : exists r w' error, body gemini options start w = (Return r, w') /\
            Result.success r = false /\ Result.finalCode r = None /\
            Result.previewPath r = None /\ Result.summary r = InspectionFailed error /\
            Result.iterations r
            = [{| Iter.iteration := 1; Iter.inspection := InspectionError error;
                  Iter.surgery := SurgeryNull; Iter.verified := false |}] /\
            files w' = files w /\ inspections w' = S (inspections w) /\
            operations w' = operations w /\
            (files w !! Options.screenshotPath options = None ->
               error = Some (Msg (u16 "File not found: " ++ Options.screenshotPath options))
               /\ model_calls w' = model_calls w) /\
            (is_Some (files w !! Options.screenshotPath options) ->
               model_calls w' = S (model_calls w)
               /\ (forall e, gemini TheInspector (model_calls w) = Fails e -> error = Some e)
               /\ (forall t, gemini TheInspector (model_calls w) = Text t ->
                     error = Inspector.error (parseInspectorResponse t)))).
  { unfold body, inspect, generateContent.
    change (files (record (CallInspect (Options.screenshotPath options)) w)) with (files w).
    change (model_calls (record (CallInspect (Options.screenshotPath options)) w))
      with (model_calls w).
    destruct (files w !! Options.screenshotPath options) as [img|] eqn:Ei.
    2:{ cbn [Inspection.success Inspection.error negb].
        eexists _, _, _. split; [reflexivity|].
        cbn [Result.success Result.finalCode Result.previewPath Result.summary
             Result.iterations start result currentCode iteration].
        repeat (split; [reflexivity|]).
        split; [intros _; split; reflexivity|intros [x Hx]; discriminate]. }
    destruct (gemini TheInspector (model_calls w)) as [t|e] eqn:Eg.
    - destruct Hfail as [H|[(e & H)|(t' & H & Hs)]]; try discriminate.
      injection H as <-.
      cbn [Inspection.success Inspection.error]. rewrite Hs. cbn [negb].
      eexists _, _, _. split; [reflexivity|].
      cbn [Result.success Result.finalCode Result.previewPath Result.summary
           Result.iterations start result currentCode iteration].
      repeat (split; [reflexivity|]).
      split; [discriminate|]. intros _. split; [reflexivity|].
      split; [discriminate|]. intros t' H. injection H as <-. reflexivity.
    - cbn [Inspection.success Inspection.error negb].
      eexists _, _, _. split; [reflexivity|].
      cbn [Result.success Result.finalCode Result.previewPath Result.summary
           Result.iterations start result currentCode iteration].
      repeat (split; [reflexivity|]).
      split; [discriminate|]. intros _. split; [reflexivity|].
      split; [|discriminate]. intros e' H. injection H as <-. reflexivity. }
  destruct Hb as (r & w' & error & Hb & Hrest).
  rewrite (while_first_pass options start w) with (r := r) (w' := w');
    [|cbn [start iteration]; lia|reflexivity|exact Hb].
  exists r, w', error. split; [reflexivity|exact Hrest].
Qed.

(** X24.  With [maxIterations] zero or negative the loop is not entered:
    nothing is inspected and no model is called, and yet the run resolves
    with [success = true], no iteration on record and the summary for 0
    defects fixed, having written the unchanged code to the preview file. *)
Theorem zero_iterations (options : Options.t) (N : Z) (w : world) (code : jsstring)
    (Hmax : Options.maxIterations options = Some N)
    (HN : (N <= 0)%Z)
    (Hcode : files w !! Options.codePath options = Some code) :
  let codePath := Options.codePath options in
  let preview :=
    join (dirname codePath)
      (basename codePath (extname codePath) ++ u16 ".flowstate-preview" ++ extname codePath) in
  exists (r : Result.t) (w' : world),
    runFlowState options w = Some (Resolved r, w') /\
    Result.success r = true /\
    Result.iterations r = [] /\
    Result.finalCode r = Some code /\
    Result.previewPath r = Some preview /\
    Result.summary r = FixedDefects 0 /\
    files w' !! preview = Some code /\
    inspections w' = inspections w /\
    model_calls w' = model_calls w /\
    operations w' = operations w.
Proof.
  intros codePath preview.
  unfold Orchestrator.runFlowState. cbv zeta. fold codePath. fold preview. clearbody preview.
  fold codePath in Hcode. rewrite Hcode, Hmax.
  change (default 2%Z (Some N)) with N.
  replace (Z.to_nat N) with 0 by lia. cbn [while iteration].
  rewrite Hmax. change (default 2%Z (Some N)) with N.
  replace (0 <? N)%Z with false by (symmetry; apply Z.ltb_ge; lia).
  eexists _, _. split; [reflexivity|].
  cbn [Result.success Result.iterations Result.finalCode Result.previewPath Result.summary
       result currentCode first_defect_count].
  repeat split.
  destruct (default false (Options.autoApply options)).
  - cbn [writeFileSync files]. destruct (decide (codePath = preview)) as [->|Hne].
    + apply lookup_insert_eq.
    + rewrite lookup_insert_ne by exact Hne. apply lookup_insert_eq.
  - apply lookup_insert_eq.
  - destruct (default false (Options.autoApply options)); reflexivity.
  - destruct (default false (Options.autoApply options)); reflexivity.
  - destruct (default false (Options.autoApply options)); reflexivity.
Qed.

End PipelineFacts.

Section PipelineWitnesses.
Import JS SafeParse Orchestrator OrchestratorSpec.

Local Abbreviation run gemini :=
  (runFlowState gemini BareName.extname BareName.dirname BareName.basename BareName.join).

Lemma first_pass_looks_good_witness :
  let content := fun (a : agent) (k : nat) =>
    Text (dq "{'looks_good':true,'visual_defects':[],'needs_asset_generation':false}") in
  exists r w',
    run content (scripted_options 2) scripted_world = Some (Resolved r, w') /\
    Result.success r = true /\
    Result.finalCode r = Some (u16 "const broken = 1;") /\
    operations w' = 0.
Proof.
  intros content.
  destruct (first_pass_looks_good content BareName.extname BareName.dirname BareName.basename
              BareName.join (scripted_options 2) scripted_world (u16 "const broken = 1;")
              (dq "{'looks_good':true,'visual_defects':[],'needs_asset_generation':false}"))
    as (r & w' & Hrun & Hs & Hc & _ & _ & _ & _ & _ & _ & Ho).
  - vm_compute. reflexivity.
  - eexists. vm_compute. reflexivity.
  - vm_compute. discriminate.
  - reflexivity.
  - vm_compute. reflexivity.
  - vm_compute. reflexivity.
  - exists r, w'. auto.
Defined.

Lemma inspection_failure_witness :
  let w := {| files := <[u16 "Card.jsx" := u16 "const broken = 1;"]> ∅; events := [] |} in
  exists r w',
    run scripted (scripted_options 2) w = Some (Resolved r, w') /\
    Result.success r = false /\
    Result.summary r = InspectionFailed (Some (Msg (u16 "File not found: shot.png"))) /\
    model_calls w' = 0.
Proof.
  intros w.
  destruct (inspection_failure scripted BareName.extname BareName.dirname BareName.basename
              BareName.join (scripted_options 2) w (u16 "const broken = 1;"))
    as (r & w' & error & Hrun & Hs & _ & _ & Hsum & _ & _ & _ & _ & Hmiss & _).
  - vm_compute. reflexivity.
  - vm_compute. discriminate.
  - left. vm_compute. reflexivity.
  - destruct Hmiss as [-> Hm]; [vm_compute; reflexivity|].
    exists r, w'. auto.
Defined.

Lemma zero_iterations_witness :
  exists r w',
    run scripted (scripted_options 0) scripted_world = Some (Resolved r, w') /\
    Result.success r = true /\
    Result.iterations r = [] /\
    inspections w' = 0.
Proof.
  destruct (zero_iterations scripted BareName.extname BareName.dirname BareName.basename
              BareName.join (scripted_options 0) 0 scripted_world (u16 "const broken = 1;"))
    as (r & w' & Hrun & Hs & Hi & _ & _ & _ & _ & Hn & _).
  - reflexivity.
  - lia.
  - vm_compute. reflexivity.
  - exists r, w'. auto.
Defined.

End PipelineWitnesses.
